(** * Crop-image batch classification and evaluation: a shallow embedding

    The development follows the four scripts of the pipeline:
    [utils.py], [create_answer_template.py], [classify_images.py] and
    [evaluate_accuracy.py].  Python dictionaries used as maps are stdpp
    [gmap]s, lists are lists, exceptions are an explicit [result] type, and
    the external collaborators (file decoding, the vision service, the
    [float] constructor) are inputs of the functions that consult them. *)

From Stdlib Require Import QArith Ascii String.
From stdpp Require Import gmap strings list fin_maps sorting.

Set Warnings "-register-all".

Local Open Scope string_scope.
Local Open Scope list_scope.

(** ** Python values, exceptions and the string builtins the scripts call *)

Module Py.

(** The exception classes that occur in the scripts.  [UnicodeDecodeError]
    stands for the whole [UnicodeError] family; it is a subclass of
    [ValueError] in Python, but a plain [ValueError] is not a
    [UnicodeError]. *)
Inductive exn : Type :=
  | FileNotFoundError
  | ValueError
  | UnicodeDecodeError
  | KeyError
  | AttributeError
  | TypeError.

Inductive result (A : Type) : Type :=
  | Ok (a : A)
  | Raise (e : exn).
Arguments Ok {A} a.
Arguments Raise {A} e.

(** Sequencing: an exception raised by the first computation propagates.
    With these instances the scripts read [x ← step; rest]. *)
#[export] Instance result_ret : MRet result := fun A a => Ok a.
#[export] Instance result_bind : MBind result := fun A B k r =>
  match r with
  | Ok a => k a
  | Raise e => Raise e
  end.

(** Values produced by [json.loads]: [None], booleans, numbers, strings,
    lists and dictionaries (the items of a dictionary in order, keys
    distinct).  Numbers are exact rationals. *)
Inductive value : Type :=
  | VNone
  | VBool (b : bool)
  | VNum (q : Q)
  | VStr (s : string)
  | VList (l : list value)
  | VDict (items : list (string * value)).

(** [d.get(key, default)] on the items of a dictionary. *)
Fixpoint dict_get (items : list (string * value)) (key : string)
    (default : value) : value :=
  match items with
  | [] => default
  | (k, v) :: rest => if String.eqb k key then v else dict_get rest key default
  end.

(** [str.lower()], on the ASCII letters; other bytes are left as they
    are. *)
Definition lower_ascii (c : ascii) : ascii :=
  let n := Ascii.N_of_ascii c in
  if ((65 <=? n) && (n <=? 90))%N then Ascii.ascii_of_N (n + 32) else c.

Fixpoint lower (s : string) : string :=
  match s with
  | EmptyString => EmptyString
  | String c rest => String (lower_ascii c) (lower rest)
  end.

(** [str.isspace()] on one character: tab, line feed, vertical tab, form
    feed, carriage return, the four separators 0x1c-0x1f and the space. *)
Definition isspace (c : ascii) : bool :=
  let n := Ascii.N_of_ascii c in
  (((9 <=? n) && (n <=? 13)) || ((28 <=? n) && (n <=? 32)))%N.

Fixpoint lstrip (s : string) : string :=
  match s with
  | EmptyString => EmptyString
  | String c rest => if isspace c then lstrip rest else s
  end.

(** Drops the trailing white space: a character is kept when it is not a
    space or when something is kept after it. *)
Fixpoint rstrip (s : string) : string :=
  match s with
  | EmptyString => EmptyString
  | String c rest =>
      match rstrip rest with
      | EmptyString => if isspace c then EmptyString else String c EmptyString
      | kept => String c kept
      end
  end.

(** [str.strip()]. *)
Definition strip (s : string) : string := rstrip (lstrip s).

(** A string is blank when every character of it is white space (the empty
    string included). *)
Fixpoint blank (s : string) : bool :=
  match s with
  | EmptyString => true
  | String c rest => isspace c && blank rest
  end.

(** [s.rfind('.')]: the index of the last dot, if there is one. *)
Fixpoint rfind_dot (s : string) : option nat :=
  match s with
  | EmptyString => None
  | String c rest =>
      match rfind_dot rest with
      | Some i => Some (S i)
      | None => if Ascii.eqb c "."%char then Some 0%nat else None
      end
  end.

(** [sorted(l, key=k)] for string keys: a stable sort, written as the
    insertion of each element in front of the first element whose key is
    not smaller. *)
Fixpoint insert_by {A : Type} (key : A -> string) (x : A) (l : list A)
    : list A :=
  match l with
  | [] => [x]
  | y :: rest =>
      if String.leb (key x) (key y) then x :: y :: rest
      else y :: insert_by key x rest
  end.

Fixpoint sorted {A : Type} (key : A -> string) (l : list A) : list A :=
  match l with
  | [] => []
  | x :: rest => insert_by key x (sorted key rest)
  end.

End Py.

Import Py.

(** ** Reading a table with [csv.DictReader] under a candidate encoding *)

Module Csv.

(** The candidates of [encodings_to_try], in the order they are tried. *)
Inductive encoding : Type := utf_8_sig | utf_8 | cp949 | euc_kr.

Definition encodings_to_try : list encoding :=
  [utf_8_sig; utf_8; cp949; euc_kr].

(** What iterating a [DictReader] over the file opened with one encoding
    gives: the rows it delivers (each a dictionary from the header's column
    names to the cells, every row as long as the header), and whether the
    iteration then stops on a byte sequence the codec cannot decode. *)
Record reading : Type := {
  delivered : list (gmap string string);
  decode_failure : bool
}.

(** An existing file, seen through each candidate encoding. *)
Definition file : Type := encoding -> reading.

(** [row[key]]. *)
Definition getitem (row : gmap string string) (key : string)
    : result string :=
  match row !! key with
  | Some cell => Ok cell
  | None => Raise KeyError
  end.

(** The clause [except (UnicodeDecodeError, UnicodeError, KeyError)]. *)
Definition caught (e : exn) : bool :=
  match e with
  | UnicodeDecodeError | KeyError => true
  | _ => false
  end.

End Csv.

Import Csv.

(** ** utils.py *)

Module Utils.

Definition SUPPORTED_IMAGE_EXTENSIONS : list string :=
  [".jpg"; ".jpeg"; ".png"].

(** An entry of the image folder: its name, whether [is_file()] holds, and
    the data URI [load_image_as_base64] builds from its bytes ([None] when
    the path no longer exists, which raises [FileNotFoundError]). *)
Record path : Type := {
  name : string;
  is_file : bool;
  data_uri : option string
}.

(** [Path.suffix]: the name from its last dot on, unless that dot is the
    first or the last character of the name. *)
Definition suffix (p : path) : string :=
  match rfind_dot (name p) with
  | Some i =>
      if ((0 <? i) && (i <? String.length (name p) - 1))%nat
      then String.substring i (String.length (name p) - i) (name p)
      else ""
  | None => ""
  end.

Definition load_image_as_base64 (image_path : path) : result string :=
  match data_uri image_path with
  | Some uri => Ok uri
  | None => Raise FileNotFoundError
  end.

(** What the chat-completion request and [json.loads] give for one image:
    an exception anywhere in the request or in reading the reply's text, a
    text that [json.loads] rejects, or the value it parses to. *)
Inductive api_reply : Type :=
  | ApiException
  | InvalidJson
  | Json (v : value).

(** [call_vision_api]: the parsed value, or [None] after either failure.
    The value is returned as parsed, whatever its shape. *)
Definition call_vision_api (api : string -> api_reply)
    (image_base64 : string) : value :=
  match api image_base64 with
  | ApiException => VNone
  | InvalidJson => VNone
  | Json result => result
  end.

(** The body of the row loop of [load_answers_from_csv]: [warned] collects
    the file names of the printed empty-label warnings. *)
Fixpoint read_label_rows (rows : list (gmap string string))
    (labels_dict : gmap string string) (warned : list string)
    : list string * result (gmap string string) :=
  match rows with
  | [] => (warned, Ok labels_dict)
  | row :: rest =>
      match getitem row "filename" with
      | Raise e => (warned, Raise e)
      | Ok f =>
          match getitem row "label" with
          | Raise e => (warned, Raise e)
          | Ok l =>
              let filename := strip f in
              let label := strip l in
              if String.eqb label "" then
                read_label_rows rest labels_dict (warned ++ [filename])
              else
                read_label_rows rest (<[filename := label]> labels_dict) warned
          end
      end
  end.

(** One pass of the [for encoding in encodings_to_try] loop: the rows are
    read, and the decoding error, if any, is raised after the rows that
    precede it. *)
Definition read_labels (r : reading) (labels_dict : gmap string string)
    (warned : list string) : list string * result (gmap string string) :=
  match read_label_rows (delivered r) labels_dict warned with
  | (w, Ok d) => if decode_failure r then (w, Raise UnicodeDecodeError)
                 else (w, Ok d)
  | (w, Raise e) => (w, Raise e)
  end.

(** The encoding loop: the first pass that raises nothing ends it; a caught
    exception resets [labels_dict]; any other exception propagates. *)
Fixpoint try_label_encodings (encodings : list encoding) (f : file)
    (labels_dict : gmap string string) (warned : list string)
    : list string * result (gmap string string) :=
  match encodings with
  | [] => (warned, Ok labels_dict)
  | enc :: rest =>
      match read_labels (f enc) labels_dict warned with
      | (w, Ok d) => (w, Ok d)
      | (w, Raise e) =>
          if caught e then try_label_encodings rest f ∅ w
          else (w, Raise e)
      end
  end.

(** [load_answers_from_csv]: the warnings printed and the mapping returned
    or the exception raised.  [None] is a path that does not exist. *)
Definition load_answers_from_csv (csv_path : option file)
    : list string * result (gmap string string) :=
  match csv_path with
  | None => ([], Raise FileNotFoundError)
  | Some f =>
      match try_label_encodings encodings_to_try f ∅ [] with
      | (w, Ok labels_dict) =>
          if bool_decide (labels_dict = ∅) then (w, Raise ValueError)
          else (w, Ok labels_dict)
      | (w, Raise e) => (w, Raise e)
      end
  end.

Definition validate_image_file (file_path : path) : bool :=
  if negb (is_file file_path) then false
  else bool_decide (lower (suffix file_path) ∈ SUPPORTED_IMAGE_EXTENSIONS).

End Utils.

(** ** create_answer_template.py *)

Module CreateAnswerTemplate.

Definition SUPPORTED_IMAGE_EXTENSIONS : list string :=
  [".jpg"; ".jpeg"; ".png"; ".bmp"; ".gif"].

(** The condition of the list comprehension of [get_all_image_files]. *)
Definition is_supported_image (file_path : Utils.path) : bool :=
  Utils.is_file file_path
  && bool_decide
       (lower (Utils.suffix file_path) ∈ SUPPORTED_IMAGE_EXTENSIONS).

(** [get_all_image_files]: [None] is a folder that does not exist, [Some]
    carries the entries in the order [iterdir()] yields them. *)
Definition get_all_image_files (folder_path : option (list Utils.path))
    : list Utils.path :=
  match folder_path with
  | None => []
  | Some entries => sorted Utils.name (List.filter is_supported_image entries)
  end.

(** A table written through [csv.DictWriter]: the header and the
    dictionaries passed to [writerow], in order. *)
Record table : Type := {
  fieldnames : list string;
  rows : list (gmap string string)
}.

(** [create_answer_template]: the table that replaces whatever was at
    [output_path]. *)
Definition create_answer_template (image_files : list Utils.path) : table :=
  {| fieldnames := ["filename"; "label"];
     rows := map (fun image_file =>
                    <["filename" := Utils.name image_file]>
                      (<["label" := ""]> ∅))
                 image_files |}.

Inductive outcome : Type :=
  | NoImagesFound
  | Written (t : table).

Definition main (image_folder : option (list Utils.path)) : outcome :=
  match get_all_image_files image_folder with
  | [] => NoImagesFound
  | image_files => Written (create_answer_template image_files)
  end.

End CreateAnswerTemplate.

(** ** classify_images.py *)

Module ClassifyImages.

(** The dictionary built for one image.  The two predicted fields hold
    whatever the parsed reply holds. *)
Record prediction : Type := {
  filename : string;
  true_label : string;
  pred_label : value;
  pred_confidence : value
}.

Definition get_image_files (folder_path : option (list Utils.path))
    : list Utils.path :=
  match folder_path with
  | None => []
  | Some entries =>
      sorted Utils.name (List.filter Utils.validate_image_file entries)
  end.

(** [v.get(key, default)]: only a dictionary has the method. *)
Definition py_get (v : value) (key : string) (default : value)
    : result value :=
  match v with
  | VDict items => Ok (dict_get items key default)
  | _ => Raise AttributeError
  end.

(** The record of both failure branches of [classify_single_image]. *)
Definition error_prediction (image_path : Utils.path) (true_label : string)
    : prediction :=
  {| filename := Utils.name image_path;
     true_label := true_label;
     pred_label := VStr "ERROR";
     pred_confidence := VNum 0 |}.

(** The [try] block of [classify_single_image]. *)
Definition classify_attempt (image_path : Utils.path)
    (api : string -> Utils.api_reply) (true_label : string)
    : result prediction :=
  image_base64 ← Utils.load_image_as_base64 image_path;
  let prediction_result := Utils.call_vision_api api image_base64 in
  match prediction_result with
  | VNone => Ok (error_prediction image_path true_label)
  | _ =>
      predicted_crop ← py_get prediction_result "crop" (VStr "unknown");
      predicted_confidence ← py_get prediction_result "confidence" (VNum 0);
      Ok {| filename := Utils.name image_path;
            true_label := true_label;
            pred_label := predicted_crop;
            pred_confidence := predicted_confidence |}
  end.

(** [classify_single_image]: [except Exception] turns every exception of
    the block into the error record. *)
Definition classify_single_image (image_path : Utils.path)
    (api : string -> Utils.api_reply) (true_label : string) : prediction :=
  match classify_attempt image_path api true_label with
  | Ok p => p
  | Raise _ => error_prediction image_path true_label
  end.

(** What the loop of [main] prints for one image. *)
Inductive event : Type :=
  | NoLabel (filename : string)
  | Progress (filename : string) (predicted_label : string)
      (confidence : value) (true_label : string) (is_correct : bool).

(** [display_progress]: [predicted_label.lower()] needs a string,
    [confidence * 100] and the [.1f] format need a number (a string is
    repeated and then refused by the format with [ValueError]). *)
Definition display_progress (filename : string) (predicted_label : value)
    (confidence : value) (true_label : string) : result event :=
  match predicted_label with
  | VStr p =>
      let is_correct := String.eqb (lower p) (lower true_label) in
      match confidence with
      | VNum _ | VBool _ =>
          Ok (Progress filename p confidence true_label is_correct)
      | VStr _ => Raise ValueError
      | _ => Raise TypeError
      end
  | _ => Raise AttributeError
  end.

(** The [for index, image_path in enumerate(image_files, start=1)] loop. *)
Fixpoint classify_all (answers_dict : gmap string string)
    (api : string -> Utils.api_reply) (image_files : list Utils.path)
    (all_predictions : list prediction) (log : list event)
    : result (list prediction * list event) :=
  match image_files with
  | [] => Ok (all_predictions, log)
  | image_path :: rest =>
      let filename := Utils.name image_path in
      let true_label := default "unknown" (answers_dict !! filename) in
      if String.eqb true_label "unknown" then
        classify_all answers_dict api rest all_predictions
          (log ++ [NoLabel filename])
      else
        let prediction := classify_single_image image_path api true_label in
        shown ← display_progress filename (pred_label prediction)
                  (pred_confidence prediction) true_label;
        classify_all answers_dict api rest (all_predictions ++ [prediction])
          (log ++ [shown])
  end.

Inductive outcome : Type :=
  | MissingApiKey
  | AnswersNotFound
  | AnswersUnreadable
  | NoValidLabels
  | NoImageFiles
  | Uncaught (e : exn)
  | Saved (predictions : list prediction) (log : list event)
  | NothingProcessed (log : list event).

(** [main]: its inputs are the value of [OPENAI_API_KEY] (empty when it is
    not set), the answer file, the image folder and the vision service;
    [Saved] carries the records handed to [save_predictions_to_csv]. *)
Definition main (api_key : string) (answer_file : option file)
    (image_folder : option (list Utils.path))
    (api : string -> Utils.api_reply) : outcome :=
  if String.eqb api_key "" then MissingApiKey
  else
    match snd (Utils.load_answers_from_csv answer_file) with
    | Raise FileNotFoundError => AnswersNotFound
    | Raise ValueError => AnswersUnreadable
    | Raise e => Uncaught e
    | Ok answers_dict =>
        if bool_decide (answers_dict = ∅) then NoValidLabels
        else
          match get_image_files image_folder with
          | [] => NoImageFiles
          | image_files =>
              match classify_all answers_dict api image_files [] [] with
              | Raise e => Uncaught e
              | Ok ([], log) => NothingProcessed log
              | Ok (all_predictions, log) => Saved all_predictions log
              end
          end
    end.

(** How [csv.writer] writes one value: a string as it is, [None] as the
    empty string, anything else through [str]. *)
Definition written_cell (str : value -> string) (v : value) : string :=
  match v with
  | VStr s => s
  | VNone => ""
  | _ => str v
  end.

(** [save_predictions_to_csv]: the table written at [output_path], one row
    per record under the four column names. *)
Definition save_predictions_to_csv (str : value -> string)
    (predictions : list prediction) : CreateAnswerTemplate.table :=
  {| CreateAnswerTemplate.fieldnames :=
       ["filename"; "true_label"; "pred_label"; "pred_confidence"];
     CreateAnswerTemplate.rows :=
       map (fun p =>
              <["filename" := filename p]>
                (<["true_label" := true_label p]>
                   (<["pred_label" := written_cell str (pred_label p)]>
                      (<["pred_confidence" :=
                           written_cell str (pred_confidence p)]> ∅))))
           predictions |}.

End ClassifyImages.

(** ** evaluate_accuracy.py *)

Module EvaluateAccuracy.

(** A retained row of the predictions table. *)
Record prediction : Type := {
  filename : string;
  true_label : string;
  pred_label : string;
  pred_confidence : Q
}.

(** The dictionary returned by [calculate_overall_accuracy]. *)
Record accuracy_info : Type := {
  total : nat;
  correct : nat;
  accuracy : Q
}.

(** An entry of the [defaultdict] [crop_data]. *)
Record crop_entry : Type := {
  entry_total : nat;
  entry_correct : nat;
  confidence_sum : Q
}.

(** An entry of [crop_statistics]. *)
Record crop_stats : Type := {
  crop_total : nat;
  crop_correct : nat;
  crop_accuracy : Q;
  avg_confidence : Q
}.

(** [a / b] on two counts, as a rational. *)
Definition ratio (a b : nat) : Q :=
  (inject_Z (Z.of_nat a) / inject_Z (Z.of_nat b))%Q.

(** The test [true.lower() == pred.lower()]. *)
Definition same_label (p : prediction) : bool :=
  String.eqb (lower (true_label p)) (lower (pred_label p)).

Section Loading.

(** [float(text)]: [None] stands for the [ValueError] it raises on a text
    that is not a number. *)
Variable float : string -> option Q.

(** The body of the row loop of [load_predictions_from_csv]. *)
Fixpoint read_prediction_rows (rows : list (gmap string string))
    (predictions : list prediction) : result (list prediction) :=
  match rows with
  | [] => Ok predictions
  | row :: rest =>
      label ← getitem row "pred_label";
      if String.eqb label "ERROR" then read_prediction_rows rest predictions
      else
        name ← getitem row "filename";
        truth ← getitem row "true_label";
        pred ← getitem row "pred_label";
        cell ← getitem row "pred_confidence";
        match float cell with
        | None => Raise ValueError
        | Some confidence =>
            read_prediction_rows rest
              (predictions ++ [{| filename := name;
                                  true_label := truth;
                                  pred_label := pred;
                                  pred_confidence := confidence |}])
        end
  end.

(** One pass of the encoding loop. *)
Definition read_predictions (r : reading) (predictions : list prediction)
    : result (list prediction) :=
  read ← read_prediction_rows (delivered r) predictions;
  if decode_failure r then Raise UnicodeDecodeError else Ok read.

(** The encoding loop: the first pass that raises nothing ends it, a caught
    exception resets [predictions], any other exception propagates. *)
Fixpoint try_prediction_encodings (encodings : list encoding) (f : file)
    (predictions : list prediction) : result (list prediction) :=
  match encodings with
  | [] => Ok predictions
  | enc :: rest =>
      match read_predictions (f enc) predictions with
      | Ok read => Ok read
      | Raise e =>
          if caught e then try_prediction_encodings rest f []
          else Raise e
      end
  end.

(** [load_predictions_from_csv]; [None] is a path that does not exist. *)
Definition load_predictions_from_csv (csv_path : option file)
    : result (list prediction) :=
  match csv_path with
  | None => Raise FileNotFoundError
  | Some f =>
      predictions ← try_prediction_encodings encodings_to_try f [];
      match predictions with
      | [] => Raise ValueError
      | _ => Ok predictions
      end
  end.

End Loading.

(** The counting loop of [calculate_overall_accuracy]. *)
Fixpoint count_correct (predictions : list prediction) (correct_count : nat)
    : nat :=
  match predictions with
  | [] => correct_count
  | prediction :: rest =>
      if same_label prediction then count_correct rest (S correct_count)
      else count_correct rest correct_count
  end.

Definition calculate_overall_accuracy (predictions : list prediction)
    : accuracy_info :=
  match predictions with
  | [] => {| total := 0; correct := 0; accuracy := 0 |}
  | _ =>
      let total_count := length predictions in
      let correct_count := count_correct predictions 0 in
      {| total := total_count;
         correct := correct_count;
         accuracy := (ratio correct_count total_count * 100)%Q |}
  end.

(** One iteration of the grouping loop of [calculate_per_crop_statistics];
    a missing key starts from the [defaultdict]'s zero entry. *)
Definition group_prediction (crop_data : gmap string crop_entry)
    (prediction : prediction) : gmap string crop_entry :=
  let true_crop := true_label prediction in
  let data :=
    default {| entry_total := 0; entry_correct := 0; confidence_sum := 0 |}
            (crop_data !! true_crop) in
  <[true_crop :=
      {| entry_total := S (entry_total data);
         entry_correct :=
           if same_label prediction then S (entry_correct data)
           else entry_correct data;
         confidence_sum :=
           (confidence_sum data + pred_confidence prediction)%Q |}]>
    crop_data.

Definition group_predictions (predictions : list prediction)
    : gmap string crop_entry :=
  fold_left group_prediction predictions ∅.

Definition crop_statistics_of (data : crop_entry) : crop_stats :=
  {| crop_total := entry_total data;
     crop_correct := entry_correct data;
     crop_accuracy :=
       (ratio (entry_correct data) (entry_total data) * 100)%Q;
     avg_confidence :=
       (confidence_sum data / inject_Z (Z.of_nat (entry_total data)))%Q |}.

Definition calculate_per_crop_statistics (predictions : list prediction)
    : gmap string crop_stats :=
  crop_statistics_of <$> group_predictions predictions.

(** The loop of [find_misclassified_images]. *)
Fixpoint collect_misclassified (predictions misclassified : list prediction)
    : list prediction :=
  match predictions with
  | [] => misclassified
  | prediction :: rest =>
      if negb (same_label prediction)
      then collect_misclassified rest (misclassified ++ [prediction])
      else collect_misclassified rest misclassified
  end.

Definition find_misclassified_images (predictions : list prediction)
    : list prediction :=
  collect_misclassified predictions [].

Inductive outcome : Type :=
  | PredictionsNotFound
  | NothingToAnalyse
  | Uncaught (e : exn)
  | Evaluated (accuracy_info : accuracy_info)
      (crop_statistics : gmap string crop_stats)
      (misclassified_images : list prediction).

(** [main]: only [FileNotFoundError] is handled around the load; the
    [if not predictions] branch follows it. *)
Definition main (float : string -> option Q) (predictions_file : option file)
    : outcome :=
  match load_predictions_from_csv float predictions_file with
  | Raise FileNotFoundError => PredictionsNotFound
  | Raise e => Uncaught e
  | Ok [] => NothingToAnalyse
  | Ok predictions =>
      Evaluated (calculate_overall_accuracy predictions)
                (calculate_per_crop_statistics predictions)
                (find_misclassified_images predictions)
  end.

End EvaluateAccuracy.

(** ** Definitions used to state the properties *)

Module Props.

(** [float] on plain decimal literals (digits with at most one dot and at
    least one digit), the instance used in the worked examples. *)
Definition digit_of (c : ascii) : option Z :=
  let n := Ascii.N_of_ascii c in
  if ((48 <=? n) && (n <=? 57))%N then Some (Z.of_N (n - 48)) else None.

Fixpoint decimal_digits (s : string) (num : Z) (den : positive)
    (after_dot seen_digit : bool) : option Q :=
  match s with
  | EmptyString => if seen_digit then Some (num # den) else None
  | String c rest =>
      if Ascii.eqb c "."%char then
        if after_dot then None
        else decimal_digits rest num den true seen_digit
      else
        match digit_of c with
        | Some d =>
            decimal_digits rest (10 * num + d)
              (if after_dot then (10 * den)%positive else den) after_dot true
        | None => None
        end
  end.

Definition decimal_float (s : string) : option Q :=
  decimal_digits s 0 1 false false.

(** A row of a table with the given cells. *)
Definition label_row (filename label : string) : gmap string string :=
  <["filename" := filename]> (<["label" := label]> ∅).

Definition prediction_row (filename true_label pred_label confidence : string)
    : gmap string string :=
  <["filename" := filename]>
    (<["true_label" := true_label]>
       (<["pred_label" := pred_label]>
          (<["pred_confidence" := confidence]> ∅))).

(** A file that every candidate encoding reads to the same rows. *)
Definition plain_file (rows : list (gmap string string)) : file :=
  fun _ => {| delivered := rows; decode_failure := false |}.

(** A row of the predictions table whose predicted label is the sentinel,
    compared as the strings they are. *)
Definition is_error_row (row : gmap string string) : Prop :=
  row !! "pred_label" = Some "ERROR".

#[export] Instance is_error_row_dec row : Decision (is_error_row row).
Proof. unfold is_error_row. apply _. Defined.

(** The record a row of the predictions table stands for, when the row has
    the four columns and its confidence reads as a number. *)
Definition record_of (float : string -> option Q) (row : gmap string string)
    : option EvaluateAccuracy.prediction :=
  name ← row !! "filename";
  truth ← row !! "true_label";
  pred ← row !! "pred_label";
  cell ← row !! "pred_confidence";
  confidence ← float cell;
  Some {| EvaluateAccuracy.filename := name;
          EvaluateAccuracy.true_label := truth;
          EvaluateAccuracy.pred_label := pred;
          EvaluateAccuracy.pred_confidence := confidence |}.

(** A row the loader can process: a sentinel row (only its predicted label
    is looked at) or a row that stands for a record. *)
Definition readable_row (float : string -> option Q)
    (row : gmap string string) : Prop :=
  is_error_row row \/ is_Some (record_of float row).

(** Case-insensitive equality of the two labels of a retained record. *)
Definition labels_agree (p : EvaluateAccuracy.prediction) : Prop :=
  lower (EvaluateAccuracy.true_label p) = lower (EvaluateAccuracy.pred_label p).

#[export] Instance labels_agree_dec p : Decision (labels_agree p).
Proof. unfold labels_agree. apply _. Defined.

(** Sums over the values of a dictionary. *)
Definition sum_values {A : Type} (f : A -> nat) (m : gmap string A) : nat :=
  sum_list_with (fun entry => f (snd entry)) (map_to_list m).



(** The count of a category as a rational weight. *)
Definition weight (n : nat) : Q := inject_Z (Z.of_nat n).

(** The items of the object the service replied with for an image; [None]
    when the image cannot be read, the request raises, the reply is not
    JSON, or it parses to anything but an object. *)
Definition reply_object (image_path : Utils.path)
    (api : string -> Utils.api_reply) : option (list (string * value)) :=
  match Utils.data_uri image_path with
  | None => None
  | Some uri =>
      match api uri with
      | Utils.Json (VDict items) => Some items
      | _ => None
      end
  end.



(** A row of the label table with its two columns. *)
Definition label_row_ok (row : gmap string string) : Prop :=
  is_Some (row !! "filename") /\ is_Some (row !! "label").

(** The mapping a list of rows stands for: a row whose label is blank
    contributes nothing, any other row stores its trimmed label under its
    trimmed file name, a later row replacing an earlier one. *)
Definition add_label (labels : gmap string string)
    (row : gmap string string) : gmap string string :=
  match row !! "filename", row !! "label" with
  | Some f, Some l => if blank l then labels else <[strip f := strip l]> labels
  | _, _ => labels
  end.

Definition labels_of (rows : list (gmap string string)) : gmap string string :=
  fold_left add_label rows ∅.

(** A row whose label is empty or white space only. *)
Definition blank_label_row (row : gmap string string) : bool :=
  match row !! "label" with
  | Some l => blank l
  | None => false
  end.

(** The trimmed file name of a row whose label is blank. *)
Definition blank_label_file (row : gmap string string) : option string :=
  match row !! "filename", row !! "label" with
  | Some f, Some l => if blank l then Some (strip f) else None
  | _, _ => None
  end.

(** A qualifying image of the template generator: a regular file whose
    extension, lower-cased, is one of the five supported ones. *)
Definition qualifying (p : Utils.path) : Prop :=
  Utils.is_file p = true
  /\ lower (Utils.suffix p) ∈ [".jpg"; ".jpeg"; ".png"; ".bmp"; ".gif"].

#[export] Instance qualifying_dec p : Decision (qualifying p).
Proof. unfold qualifying. apply _. Defined.

(** The order of [sorted(..., key=lambda x: x.name)]. *)
Definition name_le (a b : Utils.path) : Prop :=
  String.le (Utils.name a) (Utils.name b).

(** An image file of the worked examples. *)
Definition sample_image (name : string) : Utils.path :=
  {| Utils.name := name; Utils.is_file := true;
     Utils.data_uri := Some "data:image/jpeg;base64,AAAA" |}.

(** The records of one category: those whose true label is the category's
    name, letter for letter. *)
Definition in_crop (crop_name : string) (p : EvaluateAccuracy.prediction)
    : Prop :=
  EvaluateAccuracy.true_label p = crop_name.

#[export] Instance in_crop_dec crop_name p : Decision (in_crop crop_name p).
Proof. unfold in_crop. apply _. Defined.

(** The confidences of a list of records, added from left to right as the
    grouping loop adds them. *)
Definition confidence_total (l : list EvaluateAccuracy.prediction) : Q :=
  fold_left Qplus (EvaluateAccuracy.pred_confidence <$> l) 0%Q.


(** A record whose confidence is between 0 and 1. *)
Definition confidence_in_range (p : EvaluateAccuracy.prediction) : Prop :=
  (0 <= EvaluateAccuracy.pred_confidence p)%Q
  /\ (EvaluateAccuracy.pred_confidence p <= 1)%Q.

(** The label the batch loop classifies an image under: the entry of the
    mapping for its file name, unless there is none or it is [unknown]. *)
Definition label_of (answers_dict : gmap string string)
    (image_path : Utils.path) : option string :=
  match answers_dict !! Utils.name image_path with
  | Some label => if String.eqb label "unknown" then None else Some label
  | None => None
  end.

(** The record of an image that has such a label. *)
Definition batch_record (answers_dict : gmap string string)
    (api : string -> Utils.api_reply) (image_path : Utils.path)
    : option ClassifyImages.prediction :=
  ClassifyImages.classify_single_image image_path api
    <$> label_of answers_dict image_path.

(** A record whose progress line can be printed: the label is a string and
    the confidence a number. *)
Definition printable (p : ClassifyImages.prediction) : bool :=
  match ClassifyImages.pred_label p, ClassifyImages.pred_confidence p with
  | VStr _, (VNum _ | VBool _) => true
  | _, _ => false
  end.

(** A saved record that the evaluator can read back: an error record, or
    a record with a string label and a numeric confidence that [float]
    reads from the text [str] printed for it. *)
Definition reads_back (str : value -> string) (float : string -> option Q)
    (p : ClassifyImages.prediction) : Prop :=
  ClassifyImages.pred_label p = VStr "ERROR"
  \/ exists label q,
       ClassifyImages.pred_label p = VStr label
       /\ ClassifyImages.pred_confidence p = VNum q
       /\ float (str (VNum q)) = Some q.

(** The record the evaluator retains for a saved record: none for an
    error record. *)
Definition loaded_record (p : ClassifyImages.prediction)
    : option EvaluateAccuracy.prediction :=
  match ClassifyImages.pred_label p, ClassifyImages.pred_confidence p with
  | VStr label, VNum q =>
      if String.eqb label "ERROR" then None
      else Some {| EvaluateAccuracy.filename := ClassifyImages.filename p;
                   EvaluateAccuracy.true_label := ClassifyImages.true_label p;
                   EvaluateAccuracy.pred_label := label;
                   EvaluateAccuracy.pred_confidence := q |}
  | _, _ => None
  end.


(** An image of the batch driver: a regular file whose extension,
    lower-cased, is one of the three of [utils.py]. *)
Definition valid_image (p : Utils.path) : Prop :=
  Utils.is_file p = true
  /\ lower (Utils.suffix p) ∈ [".jpg"; ".jpeg"; ".png"].

#[export] Instance valid_image_dec p : Decision (valid_image p).
Proof. unfold valid_image. apply _. Defined.

End Props.

Import Props.

(** ** Facts about the string builtins *)

Section Strings.

Lemma lstrip_blank (s : string) : blank s = true -> lstrip s = "".
Proof.
  induction s as [|c s IH]; simpl; [done|].
  intros [Hc Hs]%andb_true_iff. rewrite Hc. auto.
Qed.

Lemma lstrip_not_blank (s : string) :
  blank s = false ->
  exists c rest, lstrip s = String c rest /\ isspace c = false.
Proof.
  induction s as [|c s IH]; simpl; [done|].
  destruct (isspace c) eqn:Hc; simpl; eauto.
Qed.

Lemma rstrip_head_kept (c : ascii) (rest : string) :
  isspace c = false -> rstrip (String c rest) <> "".
Proof.
  intros Hc. simpl. destruct (rstrip rest); [rewrite Hc|]; discriminate.
Qed.

(** [label.strip()] is empty exactly for the empty and the white-space-only
    labels. *)
Lemma strip_empty_iff_blank (s : string) : strip s = "" <-> blank s = true.
Proof.
  unfold strip. split.
  - destruct (blank s) eqn:Hb; [done|].
    destruct (lstrip_not_blank s Hb) as (c & rest & -> & Hc).
    intros H. by apply rstrip_head_kept in H.
  - intros Hb. by rewrite lstrip_blank.
Qed.

Lemma strip_eqb_blank (s : string) : String.eqb (strip s) "" = blank s.
Proof.
  destruct (blank s) eqn:Hb.
  - apply String.eqb_eq. by apply strip_empty_iff_blank.
  - apply String.eqb_neq. rewrite strip_empty_iff_blank. congruence.
Qed.

End Strings.

(** ** Overall accuracy and the misclassified list *)

Section Accuracy.

Import EvaluateAccuracy.

Lemma same_label_agree (p : prediction) : same_label p = true <-> labels_agree p.
Proof. unfold same_label, labels_agree. apply String.eqb_eq. Qed.

Lemma filter_same_label (l : list prediction) :
  List.filter same_label l = filter labels_agree l.
Proof.
  induction l as [|p l IH]; [done|]. simpl. rewrite filter_cons.
  destruct (same_label p) eqn:Hp.
  - rewrite decide_True by (by apply same_label_agree). by rewrite IH.
  - rewrite decide_False; [done|].
    rewrite <- same_label_agree. congruence.
Qed.

(** The counter of the loop grows by the number of agreeing records. *)
Lemma count_correct_acc (l : list prediction) (n : nat) :
  count_correct l n = n + length (filter labels_agree l).
Proof.
  revert n. induction l as [|p l IH]; intros n; simpl; [lia|].
  rewrite filter_cons. destruct (same_label p) eqn:Hp.
  - rewrite decide_True by (by apply same_label_agree).
    rewrite IH. simpl. lia.
  - rewrite decide_False; [apply IH|].
    rewrite <- same_label_agree. congruence.
Qed.

Lemma overall_total (l : list prediction) :
  total (calculate_overall_accuracy l) = length l.
Proof. by destruct l. Qed.

Lemma overall_correct (l : list prediction) :
  correct (calculate_overall_accuracy l) = length (filter labels_agree l).
Proof.
  destruct l as [|p l]; [done|].
  unfold calculate_overall_accuracy, correct. by rewrite count_correct_acc.
Qed.

Lemma overall_accuracy_value (l : list prediction) :
  accuracy (calculate_overall_accuracy l) =
    match length l with
    | O => 0%Q
    | _ => (ratio (length (filter labels_agree l)) (length l) * 100)%Q
    end.
Proof.
  destruct l as [|p l]; [done|].
  unfold calculate_overall_accuracy, accuracy.
  by rewrite count_correct_acc.
Qed.

Lemma collect_misclassified_acc (l acc : list prediction) :
  collect_misclassified l acc = acc ++ filter (fun p => ~ labels_agree p) l.
Proof.
  revert acc. induction l as [|p l IH]; intros acc; simpl.
  - by rewrite app_nil_r.
  - rewrite filter_cons. destruct (same_label p) eqn:Hp; simpl.
    + rewrite decide_False; [apply IH|].
      intros H. apply H. by apply same_label_agree.
    + rewrite decide_True.
      * rewrite IH. by rewrite <- app_assoc.
      * rewrite <- same_label_agree. congruence.
Qed.

Lemma misclassified_filter (l : list prediction) :
  find_misclassified_images l = filter (fun p => ~ labels_agree p) l.
Proof. unfold find_misclassified_images. by rewrite collect_misclassified_acc. Qed.

Lemma filter_split_length (l : list prediction) :
  length (filter labels_agree l) + length (filter (fun p => ~ labels_agree p) l)
  = length l.
Proof.
  induction l as [|p l IH]; [done|]. rewrite !filter_cons.
  destruct (decide (labels_agree p)).
  - rewrite decide_False by tauto. simpl. lia.
  - rewrite decide_True by done. simpl. lia.
Qed.



End Accuracy.

(** ** Per-crop statistics *)

Section PerCrop.

Import EvaluateAccuracy.

Lemma sum_values_fresh {A} (f : A -> nat) (m : gmap string A) k x :
  m !! k = None -> sum_values f (<[k:=x]> m) = f x + sum_values f m.
Proof.
  intros Hk. unfold sum_values. by rewrite map_to_list_insert.
Qed.

Lemma sum_values_present {A} (f : A -> nat) (m : gmap string A) k old :
  m !! k = Some old -> sum_values f m = f old + sum_values f (delete k m).
Proof.
  intros Hk. unfold sum_values. by rewrite <- (map_to_list_delete m k old).
Qed.

(** Storing an entry under a key adds its value to the sum and removes the
    value of the entry it replaces. *)
Lemma sum_values_insert {A} (f : A -> nat) (m : gmap string A) k x :
  sum_values f (<[k:=x]> m) + from_option f 0 (m !! k) = f x + sum_values f m.
Proof.
  destruct (m !! k) as [old|] eqn:Hk; simpl.
  - rewrite <- (insert_delete_eq m k x).
    rewrite sum_values_fresh by apply lookup_delete_eq.
    rewrite (sum_values_present f m k old) by done. lia.
  - rewrite sum_values_fresh by done. lia.
Qed.

Lemma sum_list_with_fmap {A B} (g : A -> B) (f : B -> nat) (l : list A) :
  sum_list_with f (g <$> l) = sum_list_with (fun a => f (g a)) l.
Proof. induction l as [|a l IH]; simpl; [done|]. f_equal. apply IH. Qed.

Lemma sum_values_fmap {A B} (g : A -> B) (f : B -> nat) (m : gmap string A) :
  sum_values f (g <$> m) = sum_values (fun a => f (g a)) m.
Proof.
  unfold sum_values. rewrite map_to_list_fmap.
  by rewrite (sum_list_with_fmap (prod_map id g)).
Qed.

Lemma group_prediction_total (m : gmap string crop_entry) (p : prediction) :
  sum_values entry_total (group_prediction m p) = S (sum_values entry_total m).
Proof.
  unfold group_prediction.
  pose proof (sum_values_insert entry_total m (true_label p)) as H.
  destruct (m !! true_label p) as [old|]; simpl in *.
  - specialize (H {| entry_total := S (entry_total old);
                     entry_correct := if same_label p then S (entry_correct old)
                                      else entry_correct old;
                     confidence_sum := (confidence_sum old + pred_confidence p)%Q |}).
    simpl in H. lia.
  - specialize (H {| entry_total := 1;
                     entry_correct := if same_label p then 1 else 0;
                     confidence_sum := (0 + pred_confidence p)%Q |}).
    simpl in H. lia.
Qed.



Lemma fold_group_total (l : list prediction) (m : gmap string crop_entry) :
  sum_values entry_total (fold_left group_prediction l m)
  = sum_values entry_total m + length l.
Proof.
  revert m. induction l as [|p l IH]; intros m; simpl; [lia|].
  rewrite IH, group_prediction_total. lia.
Qed.



Lemma sum_values_empty {A} (f : A -> nat) : sum_values f (∅ : gmap string A) = 0.
Proof. unfold sum_values. by rewrite map_to_list_empty. Qed.

Lemma per_crop_total (l : list prediction) :
  sum_values crop_total (calculate_per_crop_statistics l) = length l.
Proof.
  unfold calculate_per_crop_statistics, group_predictions.
  rewrite sum_values_fmap. simpl.
  change (fun a => entry_total a) with entry_total.
  by rewrite fold_group_total, sum_values_empty.
Qed.


Lemma weight_plus (a b : nat) : (weight (a + b) == weight a + weight b)%Q.
Proof. unfold weight. by rewrite Nat2Z.inj_add, inject_Z_plus. Qed.

Lemma weight_nonzero (t : nat) : 0 < t -> ~ (weight t == 0)%Q.
Proof. unfold weight, Qeq. simpl. lia. Qed.

(** The accuracy of one category times its count is a hundred times its
    number of correct records. *)
Lemma weighted_entry (c t : nat) :
  0 < t -> (ratio c t * 100 * weight t == 100 * weight c)%Q.
Proof.
  intros Ht. unfold ratio. fold (weight c) (weight t).
  field. by apply weight_nonzero.
Qed.




Lemma overall_weighted (l : list prediction) :
  (accuracy (calculate_overall_accuracy l) * weight (length l)
   == 100 * weight (length (filter labels_agree l)))%Q.
Proof.
  rewrite overall_accuracy_value. destruct l as [|p l].
  - unfold weight. simpl. ring.
  - apply weighted_entry. simpl. lia.
Qed.


End PerCrop.

(** ** Loading the predictions table *)

Section LoadPredictions.

Import EvaluateAccuracy.

Variable float : string -> option Q.

(** On readable rows the row loop appends, in order, the records of the
    rows that are not sentinel rows. *)
Lemma read_prediction_rows_readable (rows : list (gmap string string))
    (acc : list prediction) :
  Forall (readable_row float) rows ->
  read_prediction_rows float rows acc
  = Ok (acc ++ omap (record_of float)
                 (filter (fun row => ~ is_error_row row) rows)).
Proof.
  intros Hrows. revert acc.
  induction Hrows as [|row rows Hrow _ IH]; intros acc.
  - simpl. by rewrite app_nil_r.
  - rewrite filter_cons. cbn [read_prediction_rows]. unfold getitem.
    destruct (decide (is_error_row row)) as [Herr|Hok].
    + unfold is_error_row in Herr. rewrite Herr. cbn.
      rewrite decide_False by tauto. apply IH.
    + rewrite decide_True by done.
      destruct Hrow as [Herr|[p Hp]]; [done|].
      assert (omap (record_of float)
                (row :: filter (fun row => ~ is_error_row row) rows)
              = p :: omap (record_of float)
                       (filter (fun row => ~ is_error_row row) rows)) as ->.
      { cbn. by rewrite Hp. }
      unfold is_error_row in Hok. unfold record_of in Hp.
      destruct (row !! "filename") as [name|]; [|done].
      destruct (row !! "true_label") as [truth|]; [|done].
      destruct (row !! "pred_label") as [pred|]; [|done].
      destruct (row !! "pred_confidence") as [cell|]; [|done].
      cbn in Hp. cbn. destruct (float cell) as [confidence|]; [|done].
      cbn in Hp. injection Hp as <-.
      destruct (String.eqb_spec pred "ERROR") as [->|_]; [done|].
      cbn. rewrite IH. by rewrite <- app_assoc.
Qed.

(** The passes that raise a caught exception are skipped by the loop. *)
Lemma try_prediction_encodings_first (f : file)
    (before after : list encoding) (enc : encoding) (l : list prediction) :
  Forall (fun e => exists exn,
            read_predictions float (f e) [] = Raise exn /\ caught exn = true)
         before ->
  read_predictions float (f enc) [] = Ok l ->
  try_prediction_encodings float (before ++ enc :: after) f [] = Ok l.
Proof.
  intros Hbefore Henc.
  induction Hbefore as [|e before (exn & He & Hc) _ IH]; simpl.
  - by rewrite Henc.
  - by rewrite He, Hc.
Qed.

Lemma load_predictions_readable (f : file) (before after : list encoding)
    (enc : encoding) (rows : list (gmap string string)) :
  encodings_to_try = before ++ enc :: after ->
  Forall (fun e => exists exn,
            read_predictions float (f e) [] = Raise exn /\ caught exn = true)
         before ->
  f enc = {| delivered := rows; decode_failure := false |} ->
  Forall (readable_row float) rows ->
  load_predictions_from_csv float (Some f)
  = match omap (record_of float)
            (filter (fun row => ~ is_error_row row) rows) with
    | [] => Raise ValueError
    | loaded => Ok loaded
    end.
Proof.
  intros Hencs Hbefore Henc Hrows.
  unfold load_predictions_from_csv. rewrite Hencs.
  rewrite (try_prediction_encodings_first f before after enc
             (omap (record_of float)
                (filter (fun row => ~ is_error_row row) rows))).
  - cbn. by destruct (omap _ _).
  - done.
  - unfold read_predictions. rewrite Henc. cbn [delivered decode_failure].
    by rewrite read_prediction_rows_readable.
Qed.

Lemma omap_record_of_length (rows : list (gmap string string)) :
  Forall (readable_row float) rows ->
  length (omap (record_of float) (filter (fun row => ~ is_error_row row) rows))
  = length (filter (fun row => ~ is_error_row row) rows).
Proof.
  induction 1 as [|row rows Hrow _ IH]; [done|].
  rewrite filter_cons. case_decide as Hok; [|done].
  destruct Hrow as [Herr|[p Hp]]; [done|].
  cbn. rewrite Hp. cbn. f_equal. apply IH.
Qed.

Lemma kept_rows_records (rows : list (gmap string string)) :
  Forall (readable_row float) rows ->
  Forall2 (fun row p => record_of float row = Some p)
    (filter (fun row => ~ is_error_row row) rows)
    (omap (record_of float) (filter (fun row => ~ is_error_row row) rows)).
Proof.
  induction 1 as [|row rows Hrow _ IH]; [constructor|].
  rewrite filter_cons. case_decide as Hok; [|exact IH].
  destruct Hrow as [Herr|[p Hp]]; [done|].
  cbn. rewrite Hp. by constructor.
Qed.

Lemma all_error_rows_filter (rows : list (gmap string string)) :
  Forall is_error_row rows ->
  filter (fun row => ~ is_error_row row) rows = [].
Proof.
  induction 1 as [|row rows Hrow _ IH]; [done|].
  rewrite filter_cons. by rewrite decide_False by tauto.
Qed.

(** The loader never returns an empty list: it raises instead. *)
Lemma load_predictions_never_empty (csv_path : option file) :
  load_predictions_from_csv float csv_path <> Ok [].
Proof.
  unfold load_predictions_from_csv. destruct csv_path as [f|]; [|done].
  destruct (try_prediction_encodings float encodings_to_try f [])
    as [[|p l]|e]; by cbn.
Qed.

(** Hence the [if not predictions] branch of [main] cannot be reached. *)
Lemma main_never_nothing_to_analyse (predictions_file : option file) :
  main float predictions_file <> NothingToAnalyse.
Proof.
  unfold main. pose proof (load_predictions_never_empty predictions_file).
  destruct (load_predictions_from_csv float predictions_file) as [[|p l]|e];
    [done|done|by destruct e].
Qed.

End LoadPredictions.

Section LoadedRows.

Import EvaluateAccuracy.

(** C1. A predictions table that exists, parses under a candidate encoding
    and has at least one data row, all with the predicted label [ERROR]:
    the loader raises [ValueError], the exception of an unreadable file,
    and [main], which handles [FileNotFoundError] only, ends on that
    exception instead of its branch for an empty list of predictions. *)
Theorem all_error_rows_raise_ValueError (float : string -> option Q)
    (f : file) (before after : list encoding) (enc : encoding)
    (rows : list (gmap string string)) :
  encodings_to_try = before ++ enc :: after ->
  Forall (fun e => exists exn,
            read_predictions float (f e) [] = Raise exn /\ caught exn = true)
         before ->
  f enc = {| delivered := rows; decode_failure := false |} ->
  rows <> [] ->
  Forall is_error_row rows ->
  load_predictions_from_csv float (Some f) = Raise ValueError
  /\ main float (Some f) = Uncaught ValueError.
Proof.
  intros Hencs Hbefore Henc _ Herr.
  assert (load_predictions_from_csv float (Some f) = Raise ValueError) as Hload.
  { rewrite (load_predictions_readable float f before after enc rows);
      [|done|done|done|].
    - by rewrite all_error_rows_filter.
    - eapply Forall_impl; [exact Herr|]. intros row Hrow. by left. }
  split; [done|]. unfold main. by rewrite Hload.
Qed.

Lemma all_error_rows_raise_ValueError_witness :
  load_predictions_from_csv decimal_float
    (Some (plain_file [prediction_row "a.jpg" "apple" "ERROR" "0.0"]))
  = Raise ValueError
  /\ main decimal_float
       (Some (plain_file [prediction_row "a.jpg" "apple" "ERROR" "0.0"]))
     = Uncaught ValueError.
Proof.
  apply (all_error_rows_raise_ValueError decimal_float
           (plain_file [prediction_row "a.jpg" "apple" "ERROR" "0.0"])
           [] [utf_8; cp949; euc_kr] utf_8_sig
           [prediction_row "a.jpg" "apple" "ERROR" "0.0"]).
  - reflexivity.
  - constructor.
  - reflexivity.
  - discriminate.
  - apply Forall_cons; split; [reflexivity|]. apply Forall_nil_2.
Defined.

(** C10. Loading the predictions table drops a row exactly when its
    predicted label is the string [ERROR], compared as it is written: the
    loaded records are the records of the other rows, in order, so a row
    whose predicted label is a case variant of the sentinel is retained,
    and every retained row is counted by the overall report, by the
    per-category statistics and by the split into correct and
    misclassified records. *)
Theorem only_exact_ERROR_rows_dropped (float : string -> option Q)
    (f : file) (before after : list encoding) (enc : encoding)
    (rows : list (gmap string string)) :
  encodings_to_try = before ++ enc :: after ->
  Forall (fun e => exists exn,
            read_predictions float (f e) [] = Raise exn /\ caught exn = true)
         before ->
  f enc = {| delivered := rows; decode_failure := false |} ->
  Forall (readable_row float) rows ->
  let kept := filter (fun row => row !! "pred_label" <> Some "ERROR") rows in
  let loaded := omap (record_of float) kept in
  load_predictions_from_csv float (Some f)
    = match loaded with
      | [] => Raise ValueError
      | _ => Ok loaded
      end
  /\ Forall2 (fun row p => record_of float row = Some p) kept loaded
  /\ total (calculate_overall_accuracy loaded) = length kept
  /\ sum_values crop_total (calculate_per_crop_statistics loaded) = length kept
  /\ correct (calculate_overall_accuracy loaded)
     + length (find_misclassified_images loaded) = length kept.
Proof.
  intros Hencs Hbefore Henc Hrows kept loaded.
  assert (length loaded = length kept) as Hlen
    by apply (omap_record_of_length float rows Hrows).
  split; [|split; [|split; [|split]]].
  - rewrite (load_predictions_readable float f before after enc rows)
      by done.
    change (omap (record_of float)
              (filter (fun row => ~ is_error_row row) rows)) with loaded.
    clearbody loaded. by destruct loaded.
  - apply (kept_rows_records float rows Hrows).
  - by rewrite overall_total.
  - by rewrite per_crop_total.
  - rewrite overall_correct, misclassified_filter, filter_split_length. done.
Qed.

Lemma only_exact_ERROR_rows_dropped_witness :
  let rows := [prediction_row "a.jpg" "apple" "error" "0.5";
               prediction_row "b.jpg" "grape" "ERROR" "0.0";
               prediction_row "c.jpg" "error" "Error" "0.25"] in
  let kept := filter (fun row => row !! "pred_label" <> Some "ERROR") rows in
  let loaded := omap (record_of decimal_float) kept in
  load_predictions_from_csv decimal_float (Some (plain_file rows))
    = match loaded with
      | [] => Raise ValueError
      | _ => Ok loaded
      end
  /\ Forall2 (fun row p => record_of decimal_float row = Some p) kept loaded
  /\ total (calculate_overall_accuracy loaded) = length kept
  /\ sum_values crop_total (calculate_per_crop_statistics loaded) = length kept
  /\ correct (calculate_overall_accuracy loaded)
     + length (find_misclassified_images loaded) = length kept.
Proof.
  apply (only_exact_ERROR_rows_dropped decimal_float
           (plain_file [prediction_row "a.jpg" "apple" "error" "0.5";
                        prediction_row "b.jpg" "grape" "ERROR" "0.0";
                        prediction_row "c.jpg" "error" "Error" "0.25"])
           [] [utf_8; cp949; euc_kr] utf_8_sig).
  - reflexivity.
  - constructor.
  - reflexivity.
  - apply Forall_cons; split; [right; vm_compute; eauto|].
    apply Forall_cons; split; [left; reflexivity|].
    apply Forall_cons; split; [right; vm_compute; eauto|].
    apply Forall_nil_2.
Defined.

(** The rows of the example above that survive the load: the two case
    variants of the sentinel, both counted. *)
Example case_variants_are_retained :
  load_predictions_from_csv decimal_float
    (Some (plain_file [prediction_row "a.jpg" "apple" "error" "0.5";
                       prediction_row "b.jpg" "grape" "ERROR" "0.0";
                       prediction_row "c.jpg" "error" "Error" "0.25"]))
  = Ok [ {| filename := "a.jpg"; true_label := "apple";
            pred_label := "error"; pred_confidence := 0.5 |};
         {| filename := "c.jpg"; true_label := "error";
            pred_label := "Error"; pred_confidence := 0.25 |} ].
Proof. vm_compute. reflexivity. Qed.

End LoadedRows.

(** ** Classifying one image and the batch loop *)

Section Classification.

Import ClassifyImages.

(** What [classify_single_image] returns, by the shape of the reply: the
    error record unless the reply is an object, and otherwise the object's
    [crop] and [confidence] values with the defaults of [get]. *)
Lemma classify_single_image_fields (image_path : Utils.path)
    (api : string -> Utils.api_reply) (label : string) :
  classify_single_image image_path api label =
    match reply_object image_path api with
    | None => error_prediction image_path label
    | Some items =>
        {| filename := Utils.name image_path;
           true_label := label;
           pred_label := dict_get items "crop" (VStr "unknown");
           pred_confidence := dict_get items "confidence" (VNum 0) |}
    end.
Proof.
  unfold classify_single_image, classify_attempt, reply_object,
    Utils.load_image_as_base64, Utils.call_vision_api.
  destruct (Utils.data_uri image_path) as [uri|]; cbn; [|done].
  destruct (api uri) as [| |v]; cbn; [done|done|].
  by destruct v.
Qed.

(** C3, as the code has it.  Whenever the image cannot be read, the request
    fails, the reply is not JSON or it parses to anything but an object,
    the record is the error record: [pred_label] is [ERROR] and
    [pred_confidence] is [0.0]; [classify_single_image] returns a record on
    every input.  A reply that parses to an object is accepted whatever its
    keys: [pred_label] is its [crop] value, [unknown] when the key is
    missing, and [pred_confidence] its [confidence] value, [0.0] when
    missing. *)
Theorem adapter_failure_is_ERROR_record (image_path : Utils.path)
    (api : string -> Utils.api_reply) (label : string) :
  let p := classify_single_image image_path api label in
  filename p = Utils.name image_path
  /\ true_label p = label
  /\ (pred_label p, pred_confidence p) =
       match reply_object image_path api with
       | None => (VStr "ERROR", VNum 0)
       | Some items => (dict_get items "crop" (VStr "unknown"),
                        dict_get items "confidence" (VNum 0))
       end.
Proof.
  intros p. subst p. rewrite classify_single_image_fields.
  by destruct (reply_object image_path api).
Qed.

(** A reply that parses to an object without the two fields is not turned
    into the error record: the label becomes [unknown]. *)
Lemma missing_fields_reply_is_not_ERROR :
  let p := classify_single_image (sample_image "a.jpg")
             (fun _ => Utils.Json (VDict [])) "apple" in
  pred_label p = VStr "unknown" /\ pred_label p <> VStr "ERROR".
Proof. split; [reflexivity|discriminate]. Qed.




(** C2.  An image whose file name is in the label mapping with the label
    [unknown] is treated as an image without label: the loop reports
    "no label" for it, does not call the classifier and adds no record. *)
Theorem unknown_label_is_skipped (answers_dict : gmap string string)
    (api : string -> Utils.api_reply) (image_path : Utils.path)
    (rest : list Utils.path) (all_predictions : list prediction)
    (log : list event) :
  answers_dict !! Utils.name image_path = Some "unknown" ->
  classify_all answers_dict api (image_path :: rest) all_predictions log
  = classify_all answers_dict api rest all_predictions
      (log ++ [NoLabel (Utils.name image_path)]).
Proof. intros Hlabel. cbn [classify_all]. by rewrite Hlabel. Qed.

Lemma unknown_label_is_skipped_witness :
  classify_all (<["a.jpg" := "unknown"]> ∅)
    (fun _ => Utils.Json (VDict [("crop", VStr "apple");
                                 ("confidence", VNum 0.93)]))
    [sample_image "a.jpg"] [] []
  = Ok ([], [NoLabel "a.jpg"]).
Proof.
  rewrite (unknown_label_is_skipped (<["a.jpg" := "unknown"]> ∅)
             (fun _ => Utils.Json (VDict [("crop", VStr "apple");
                                          ("confidence", VNum 0.93)]))
             (sample_image "a.jpg") [] [] []).
  - reflexivity.
  - reflexivity.
Defined.

(** The same input through [main]: the answer file labels the only image
    [unknown], nothing is processed and no table is written. *)
Example main_skips_unknown_label :
  main "key" (Some (plain_file [label_row "a.jpg" "unknown"]))
    (Some [sample_image "a.jpg"])
    (fun _ => Utils.Json (VDict [("crop", VStr "apple");
                                 ("confidence", VNum 0.93)]))
  = NothingProcessed [NoLabel "a.jpg"].
Proof. vm_compute. reflexivity. Qed.

End Classification.

(** ** Sorting by name and the answer template *)

Section Sorting.

Context {A : Type} (key : A -> string).

Let key_le (a b : A) : Prop := String.le (key a) (key b).

Lemma key_leb_le (a b : A) : String.leb (key a) (key b) = true <-> key_le a b.
Proof. unfold key_le, String.le. by rewrite Is_true_true. Qed.

Lemma key_le_total (a b : A) : key_le a b \/ key_le b a.
Proof. apply (total String.le). Qed.

Lemma insert_by_Permutation (x : A) (l : list A) : insert_by key x l ≡ₚ x :: l.
Proof.
  induction l as [|y l IH]; simpl; [done|].
  destruct (String.leb (key x) (key y)); [done|].
  rewrite IH. apply Permutation_swap.
Qed.

Lemma sorted_Permutation (l : list A) : sorted key l ≡ₚ l.
Proof.
  induction l as [|x l IH]; simpl; [done|].
  by rewrite insert_by_Permutation, IH.
Qed.

Lemma insert_by_HdRel (a x : A) (l : list A) :
  key_le a x -> HdRel key_le a l -> HdRel key_le a (insert_by key x l).
Proof.
  intros Hax Hal. destruct l as [|y l]; simpl.
  - by constructor.
  - destruct (String.leb (key x) (key y)); constructor; [done|].
    by inversion Hal.
Qed.

Lemma insert_by_Sorted (x : A) (l : list A) :
  Sorted key_le l -> Sorted key_le (insert_by key x l).
Proof.
  induction 1 as [|y l Hl IH Hy]; simpl.
  - by repeat constructor.
  - destruct (String.leb (key x) (key y)) eqn:Hxy.
    + constructor; [by constructor|]. constructor. by apply key_leb_le.
    + constructor; [done|]. apply insert_by_HdRel; [|done].
      destruct (key_le_total y x) as [|Hle]; [done|].
      apply key_leb_le in Hle. congruence.
Qed.

Lemma sorted_Sorted (l : list A) : Sorted key_le (sorted key l).
Proof.
  induction l as [|x l IH]; simpl; [constructor|]. by apply insert_by_Sorted.
Qed.

(** The keys of the sorted list are in non-decreasing order. *)
Lemma sorted_keys_StronglySorted (l : list A) :
  StronglySorted String.le (key <$> sorted key l).
Proof.
  apply Sorted_StronglySorted; [apply _|].
  apply (Sorted_fmap key key_le String.le); [done|]. apply sorted_Sorted.
Qed.

End Sorting.

Section Template.

Import CreateAnswerTemplate.

Lemma supported_qualifying (p : Utils.path) : is_supported_image p = true <-> qualifying p.
Proof.
  unfold is_supported_image, qualifying, SUPPORTED_IMAGE_EXTENSIONS.
  by rewrite andb_true_iff, bool_decide_eq_true.
Qed.

Lemma filter_supported (entries : list Utils.path) :
  List.filter is_supported_image entries = filter qualifying entries.
Proof.
  induction entries as [|p l IH]; [done|]. simpl. rewrite filter_cons.
  destruct (is_supported_image p) eqn:Hp.
  - rewrite decide_True by (by apply supported_qualifying). by rewrite IH.
  - rewrite decide_False; [done|]. rewrite <- supported_qualifying. congruence.
Qed.

Lemma image_files_Permutation (entries : list Utils.path) :
  get_all_image_files (Some entries) ≡ₚ filter qualifying entries.
Proof.
  unfold get_all_image_files. by rewrite sorted_Permutation, filter_supported.
Qed.

(** C9. For a folder whose entries include N qualifying images, the
    template has exactly N data rows, one per qualifying image, in the
    lexicographic order of the file names, each with an empty label; and
    [main] writes that template unless N is zero. *)
Theorem answer_template_rows (entries : list Utils.path) :
  let images := filter qualifying entries in
  let image_files := get_all_image_files (Some entries) in
  let template := create_answer_template image_files in
  fieldnames template = ["filename"; "label"]
  /\ rows template
     = (fun p => label_row (Utils.name p) "") <$> image_files
  /\ length (rows template) = length images
  /\ Utils.name <$> image_files ≡ₚ Utils.name <$> images
  /\ StronglySorted String.le (Utils.name <$> image_files)
  /\ Forall (fun row => row !! "label" = Some "") (rows template)
  /\ main (Some entries) = match images with
                           | [] => NoImagesFound
                           | _ => Written template
                           end.
Proof.
  intros images image_files template.
  assert (image_files ≡ₚ images) as Hperm by apply image_files_Permutation.
  split; [done|]. split; [done|]. split; [|split; [|split; [|split]]].
  - unfold template, create_answer_template. cbn [rows].
    by rewrite length_map, Hperm.
  - by rewrite Hperm.
  - apply sorted_keys_StronglySorted.
  - unfold template, create_answer_template. cbn [rows].
    apply List.Forall_map, Forall_forall. intros p _.
    rewrite lookup_insert_ne by done. apply lookup_insert_eq.
  - subst template.
    unfold main. change (get_all_image_files (Some entries)) with image_files.
    apply Permutation_length in Hperm. clearbody image_files images.
    by destruct image_files, images.
Qed.

End Template.

(** ** Loading the label table *)

Section LoadAnswers.

Import Utils.

(** On rows with both columns the row loop warns about the blank labels
    and stores the others. *)
Lemma read_label_rows_ok (rows : list (gmap string string))
    (labels_dict : gmap string string) (warned : list string) :
  Forall label_row_ok rows ->
  read_label_rows rows labels_dict warned
  = (warned ++ omap blank_label_file rows,
     Ok (fold_left add_label rows labels_dict)).
Proof.
  intros Hrows. revert labels_dict warned.
  induction Hrows as [|row rows [[f Hf] [l Hl]] _ IH]; intros d w.
  - cbn. by rewrite app_nil_r.
  - cbn [read_label_rows fold_left]. unfold getitem, add_label.
    cbn [omap list_omap]. unfold blank_label_file.
    rewrite Hf, Hl. cbn. rewrite strip_eqb_blank.
    destruct (blank l); rewrite IH; [|done].
    by rewrite <- app_assoc.
Qed.




(** Rows whose labels are all blank stand for the empty mapping. *)
Lemma only_blank_labels_empty (rows : list (gmap string string)) :
  forallb blank_label_row rows = true -> labels_of rows = ∅.
Proof.
  unfold labels_of. generalize (∅ : gmap string string).
  induction rows as [|row rows IH]; intros d Hrows; [done|].
  cbn in Hrows. apply andb_true_iff in Hrows as [Hrow Hrows].
  cbn [fold_left].
  assert (add_label d row = d) as ->; [|by apply IH].
  unfold add_label. unfold blank_label_row in Hrow.
  destruct (row !! "filename"); [|done].
  destruct (row !! "label"); [|done]. by rewrite Hrow.
Qed.



(** A table with one blank and one filled label: the blank row is warned
    about and left out, the other row is returned. *)
Example blank_row_left_out :
  load_answers_from_csv
    (Some (plain_file [label_row "a.jpg" " "; label_row "b.jpg" " grape "]))
  = (["a.jpg"], Ok (<["b.jpg" := "grape"]> ∅)).
Proof. vm_compute. reflexivity. Qed.

End LoadAnswers.

(** ** The other cases of the batch loop *)

Section BatchLoop.

Import ClassifyImages.

(** An image whose file name is not in the mapping is skipped. *)
Lemma missing_label_is_skipped (answers_dict : gmap string string)
    (api : string -> Utils.api_reply) (image_path : Utils.path)
    (rest : list Utils.path) (all_predictions : list prediction)
    (log : list event) :
  answers_dict !! Utils.name image_path = None ->
  classify_all answers_dict api (image_path :: rest) all_predictions log
  = classify_all answers_dict api rest all_predictions
      (log ++ [NoLabel (Utils.name image_path)]).
Proof. intros Hlabel. cbn [classify_all]. by rewrite Hlabel. Qed.

(** An image with any other label is classified once, and its record is
    appended when the progress line can be printed. *)
Lemma labelled_image_is_classified (answers_dict : gmap string string)
    (api : string -> Utils.api_reply) (image_path : Utils.path)
    (rest : list Utils.path) (all_predictions : list prediction)
    (log : list event) (label : string) (shown : event) :
  answers_dict !! Utils.name image_path = Some label ->
  label <> "unknown" ->
  display_progress (Utils.name image_path)
    (pred_label (classify_single_image image_path api label))
    (pred_confidence (classify_single_image image_path api label)) label
  = Ok shown ->
  classify_all answers_dict api (image_path :: rest) all_predictions log
  = classify_all answers_dict api rest
      (all_predictions ++ [classify_single_image image_path api label])
      (log ++ [shown]).
Proof.
  intros Hlabel Hknown Hshown. cbn [classify_all]. rewrite Hlabel. cbn.
  destruct (String.eqb_spec label "unknown") as [|_]; [done|].
  by rewrite Hshown.
Qed.

(** A reply whose [crop] is not a string gives a record that
    [display_progress] cannot print: the exception leaves the loop and
    [main], and nothing is saved. *)
Example non_string_crop_ends_batch :
  main "key" (Some (plain_file [label_row "a.jpg" "apple"]))
    (Some [sample_image "a.jpg"])
    (fun _ => Utils.Json (VDict [("crop", VNum 5); ("confidence", VNum 0.9)]))
  = Uncaught AttributeError.
Proof. vm_compute. reflexivity. Qed.

End BatchLoop.

(** ** The entry of each category *)

Section CropEntries.

Import EvaluateAccuracy.

(** The entry of a category after more of its records were grouped. *)
Let entry_after (e : crop_entry) (matching : list prediction) : crop_entry :=
  {| entry_total := entry_total e + length matching;
     entry_correct := entry_correct e + length (filter labels_agree matching);
     confidence_sum :=
       fold_left Qplus (pred_confidence <$> matching) (confidence_sum e) |}.

Let zero_entry : crop_entry :=
  {| entry_total := 0; entry_correct := 0; confidence_sum := 0 |}.

Lemma crop_entry_eq (e1 e2 : crop_entry) :
  entry_total e1 = entry_total e2 ->
  entry_correct e1 = entry_correct e2 ->
  confidence_sum e1 = confidence_sum e2 ->
  e1 = e2.
Proof. destruct e1, e2. simpl. by intros -> -> ->. Qed.

Lemma group_prediction_lookup_other (m : gmap string crop_entry)
    (p : prediction) (k : string) :
  true_label p <> k -> group_prediction m p !! k = m !! k.
Proof. intros Hk. unfold group_prediction. by rewrite lookup_insert_ne. Qed.

Lemma group_prediction_lookup_same (m : gmap string crop_entry)
    (p : prediction) :
  group_prediction m p !! true_label p
  = Some (entry_after (default zero_entry (m !! true_label p)) [p]).
Proof.
  unfold group_prediction, entry_after, zero_entry.
  rewrite lookup_insert_eq. f_equal.
  assert (length (filter labels_agree [p]) = if same_label p then 1 else 0)
    as Hone.
  { rewrite filter_cons, filter_nil. destruct (same_label p) eqn:Hp.
    - by rewrite decide_True by (by apply same_label_agree).
    - rewrite decide_False; [done|]. rewrite <- same_label_agree. congruence. }
  destruct (m !! true_label p) as [e|]; apply crop_entry_eq;
    cbn [entry_total entry_correct confidence_sum default from_option id
         length fmap list_fmap fold_left];
    rewrite ?Hone; try done; try lia; destruct (same_label p); lia.
Qed.

Lemma entry_after_cons (e : crop_entry) (p : prediction)
    (matching : list prediction) :
  entry_after (entry_after e [p]) matching = entry_after e (p :: matching).
Proof.
  unfold entry_after. apply crop_entry_eq;
    cbn [entry_total entry_correct confidence_sum length fmap list_fmap
         fold_left].
  - lia.
  - rewrite !filter_cons, filter_nil.
    destruct (decide (labels_agree p)); simpl; lia.
  - done.
Qed.

(** The grouping loop, one key at a time. *)
Lemma fold_group_lookup (l : list prediction) (m : gmap string crop_entry)
    (k : string) :
  fold_left group_prediction l m !! k
  = match filter (in_crop k) l with
    | [] => m !! k
    | matching => Some (entry_after (default zero_entry (m !! k)) matching)
    end.
Proof.
  revert m. induction l as [|p l IH]; intros m; [done|].
  cbn [fold_left]. rewrite IH, filter_cons.
  destruct (decide (in_crop k p)) as [Hk|Hk]; unfold in_crop in Hk.
  - subst k. rewrite group_prediction_lookup_same.
    destruct (filter (in_crop (true_label p)) l) as [|q matching]; [done|].
    f_equal. apply (entry_after_cons _ p (q :: matching)).
  - by rewrite group_prediction_lookup_other.
Qed.

Lemma per_crop_lookup (l : list prediction) (k : string) :
  calculate_per_crop_statistics l !! k
  = match filter (in_crop k) l with
    | [] => None
    | matching =>
        Some {| crop_total := length matching;
                crop_correct := length (filter labels_agree matching);
                crop_accuracy :=
                  (ratio (length (filter labels_agree matching))
                         (length matching) * 100)%Q;
                avg_confidence :=
                  (confidence_total matching / weight (length matching))%Q |}
    end.
Proof.
  unfold calculate_per_crop_statistics, group_predictions.
  rewrite lookup_fmap, fold_group_lookup, lookup_empty.
  by destruct (filter (in_crop k) l).
Qed.

Lemma filter_agree_length (l : list prediction) :
  length (filter labels_agree l) <= length l.
Proof. apply length_filter. Qed.

Lemma ratio_percent_bounds (c t : nat) :
  c <= t -> 0 < t -> (0 <= ratio c t * 100)%Q /\ (ratio c t * 100 <= 100)%Q.
Proof.
  intros Hc Ht. unfold ratio. fold (weight c) (weight t).
  assert (0 < weight t)%Q as Hpos by (unfold weight, Qlt; simpl; lia).
  assert (0 <= weight c)%Q as Hc0 by (unfold weight, Qle; simpl; lia).
  assert (weight c <= weight t)%Q as Hct
    by (unfold weight; rewrite <- Zle_Qle; lia).
  split.
  - apply Qmult_le_0_compat; [|done].
    apply Qle_shift_div_l; [done|]. by rewrite Qmult_0_l.
  - apply (Qle_trans _ (1 * 100)%Q); [|done].
    apply Qmult_le_compat_r; [|done].
    apply Qle_shift_div_r; [done|]. by rewrite Qmult_1_l.
Qed.

(** Adding confidences between 0 and 1 to a sum moves it up by at most
    their number. *)
Lemma confidence_fold_bounds (l : list prediction) (a : Q) :
  Forall confidence_in_range l ->
  (a <= fold_left Qplus (pred_confidence <$> l) a)%Q
  /\ (fold_left Qplus (pred_confidence <$> l) a <= a + weight (length l))%Q.
Proof.
  intros Hl. revert a. induction Hl as [|p l [Hp0 Hp1] _ IH]; intros a.
  - cbn. unfold weight. cbn. split; [apply Qle_refl|].
    rewrite Qplus_0_r. apply Qle_refl.
  - cbn [fmap list_fmap fold_left length].
    destruct (IH (a + pred_confidence p)%Q) as [Hlo Hhi]. split.
    + eapply Qle_trans; [|exact Hlo].
      rewrite <- (Qplus_0_r a) at 1. by apply Qplus_le_r.
    + eapply Qle_trans; [exact Hhi|].
      change (S (length l)) with (1 + length l)%nat. rewrite weight_plus.
      change (weight 1) with 1%Q. rewrite Qplus_assoc.
      apply Qplus_le_l, Qplus_le_r. exact Hp1.
Qed.

End CropEntries.

(** ** Further properties of the statistics *)

Section Statistics.

Import EvaluateAccuracy.


(** Every category of the statistics has at least one record and at most
    as many as there are predictions, no more correct records than
    records, and an accuracy between 0 and 100. *)
Theorem per_crop_statistics_bounds (predictions : list prediction)
    (crop_name : string) (stats : crop_stats) :
  calculate_per_crop_statistics predictions !! crop_name = Some stats ->
  1 <= crop_total stats <= length predictions
  /\ crop_correct stats <= crop_total stats
  /\ (0 <= crop_accuracy stats)%Q
  /\ (crop_accuracy stats <= 100)%Q.
Proof.
  rewrite per_crop_lookup.
  pose proof (length_filter (in_crop crop_name) predictions) as Hlen.
  destruct (filter (in_crop crop_name) predictions) as [|p matching] eqn:Hm;
    [done|].
  intros [= <-]. cbn [crop_total crop_correct crop_accuracy].
  pose proof (filter_agree_length (p :: matching)) as Hc.
  destruct (ratio_percent_bounds (length (filter labels_agree (p :: matching)))
              (length (p :: matching))) as [Hlo Hhi]; [done|simpl; lia|].
  simpl in Hlen. simpl. repeat split; try done; lia.
Qed.

Lemma per_crop_statistics_bounds_witness :
  let stats := {| crop_total := 1; crop_correct := 1;
                  crop_accuracy := (ratio 1 1 * 100)%Q;
                  avg_confidence :=
                    (confidence_total
                       [{| filename := "a.jpg"; true_label := "apple";
                           pred_label := "Apple"; pred_confidence := 0.9 |}]
                     / weight 1)%Q |} in
  1 <= crop_total stats <= 1
  /\ crop_correct stats <= crop_total stats
  /\ (0 <= crop_accuracy stats)%Q
  /\ (crop_accuracy stats <= 100)%Q.
Proof.
  apply (per_crop_statistics_bounds
           [{| filename := "a.jpg"; true_label := "apple";
               pred_label := "Apple"; pred_confidence := 0.9 |}]
           "apple").
  rewrite per_crop_lookup. reflexivity.
Defined.

(** When every confidence of the predictions is between 0 and 1, so is the
    mean confidence of every category. *)
Theorem avg_confidence_in_range (predictions : list prediction)
    (crop_name : string) (stats : crop_stats) :
  Forall confidence_in_range predictions ->
  calculate_per_crop_statistics predictions !! crop_name = Some stats ->
  (0 <= avg_confidence stats)%Q /\ (avg_confidence stats <= 1)%Q.
Proof.
  intros Hrange. rewrite per_crop_lookup.
  assert (Forall confidence_in_range (filter (in_crop crop_name) predictions))
    as Hm.
  { apply Forall_forall. intros x [_ Hx]%list_elem_of_filter.
    revert x Hx. by apply Forall_forall. }
  destruct (filter (in_crop crop_name) predictions) as [|p matching]; [done|].
  intros [= <-]. cbn [avg_confidence].
  destruct (confidence_fold_bounds (p :: matching) 0 Hm) as [Hlo Hhi].
  fold (confidence_total (p :: matching)) in Hlo, Hhi.
  assert (0 < weight (length (p :: matching)))%Q as Hpos
    by (unfold weight, Qlt; simpl; lia).
  split.
  - apply Qle_shift_div_l; [done|]. by rewrite Qmult_0_l.
  - apply Qle_shift_div_r; [done|].
    rewrite Qmult_1_l. by rewrite Qplus_0_l in Hhi.
Qed.

Lemma avg_confidence_in_range_witness :
  let stats := {| crop_total := 1; crop_correct := 1;
                  crop_accuracy := (ratio 1 1 * 100)%Q;
                  avg_confidence :=
                    (confidence_total
                       [{| filename := "a.jpg"; true_label := "apple";
                           pred_label := "Apple"; pred_confidence := 0.9 |}]
                     / weight 1)%Q |} in
  (0 <= avg_confidence stats)%Q /\ (avg_confidence stats <= 1)%Q.
Proof.
  apply (avg_confidence_in_range
           [{| filename := "a.jpg"; true_label := "apple";
               pred_label := "Apple"; pred_confidence := 0.9 |}]
           "apple").
  - apply Forall_cons; split; [|apply Forall_nil_2].
    split; unfold Qle; simpl; lia.
  - rewrite per_crop_lookup. reflexivity.
Defined.

(** The overall report never counts more correct records than records, and
    its accuracy is between 0 and 100. *)
Theorem overall_accuracy_bounds (predictions : list prediction) :
  let report := calculate_overall_accuracy predictions in
  correct report <= total report
  /\ (0 <= accuracy report)%Q
  /\ (accuracy report <= 100)%Q.
Proof.
  intros report. subst report.
  rewrite overall_total, overall_correct, overall_accuracy_value.
  pose proof (filter_agree_length predictions) as Hc.
  split; [done|]. destruct predictions as [|p l]; [done|].
  apply ratio_percent_bounds; [done|simpl; lia].
Qed.





(** For a list with at least one record, no record is misclassified
    exactly when the accuracy is 100. *)
Theorem no_misclassified_iff_full_accuracy (predictions : list prediction) :
  predictions <> [] ->
  find_misclassified_images predictions = []
  <-> (accuracy (calculate_overall_accuracy predictions) == 100)%Q.
Proof.
  intros Hne. rewrite misclassified_filter.
  pose proof (filter_split_length predictions) as Hsplit.
  pose proof (overall_weighted predictions) as Hw.
  assert (0 < length predictions) as Hpos
    by (destruct predictions; [done|simpl; lia]).
  assert (~ (100 == 0)%Q) as H100 by done.
  rewrite <- length_zero_iff_nil. split.
  - intros Hnone.
    assert (length (filter labels_agree predictions) = length predictions)
      as Hall by lia.
    rewrite Hall in Hw.
    apply (Qmult_inj_r _ _ (weight (length predictions)));
      [by apply weight_nonzero|done].
  - intros Hfull. rewrite Hfull in Hw.
    apply Qmult_inj_l in Hw; [|done].
    unfold weight in Hw. apply inject_Z_injective, Nat2Z.inj in Hw. lia.
Qed.

Lemma no_misclassified_iff_full_accuracy_witness :
  find_misclassified_images
    [{| filename := "a.jpg"; true_label := "apple";
        pred_label := "Apple"; pred_confidence := 0.9 |}] = []
  <-> (accuracy (calculate_overall_accuracy
                   [{| filename := "a.jpg"; true_label := "apple";
                       pred_label := "Apple"; pred_confidence := 0.9 |}])
       == 100)%Q.
Proof. apply no_misclassified_iff_full_accuracy. discriminate. Defined.

End Statistics.

(** ** Failures while loading the predictions table *)

Section LoadFailures.

Import EvaluateAccuracy.

Variable float : string -> option Q.

Lemma read_prediction_rows_app (rows1 rows2 : list (gmap string string))
    (acc : list prediction) :
  read_prediction_rows float (rows1 ++ rows2) acc
  = read_prediction_rows float rows1 acc
      ≫= read_prediction_rows float rows2.
Proof.
  revert acc. induction rows1 as [|row rows1 IH]; intros acc; [done|].
  cbn [app read_prediction_rows].
  destruct (getitem row "pred_label") as [label|e]; [|done]. cbn.
  destruct (String.eqb label "ERROR"); [apply IH|].
  destruct (getitem row "filename") as [name|e]; [|done]. cbn.
  destruct (getitem row "true_label") as [truth|e]; [|done]. cbn.
  destruct (getitem row "pred_confidence") as [cell|e]; [|done]. cbn.
  destruct (float cell); [apply IH|done].
Qed.

(** A retained row whose confidence is not a number stops the row loop
    with [ValueError]. *)
Lemma read_prediction_rows_bad_confidence
    (rows_before rows_after : list (gmap string string))
    (row : gmap string string) (name truth pred cell : string) :
  Forall (readable_row float) rows_before ->
  row !! "filename" = Some name ->
  row !! "true_label" = Some truth ->
  row !! "pred_label" = Some pred ->
  pred <> "ERROR" ->
  row !! "pred_confidence" = Some cell ->
  float cell = None ->
  read_prediction_rows float (rows_before ++ row :: rows_after) []
  = Raise ValueError.
Proof.
  intros Hbefore Hname Htruth Hpred Hkept Hcell Hfloat.
  rewrite read_prediction_rows_app, read_prediction_rows_readable by done.
  cbn. unfold getitem. rewrite Hpred. cbn.
  destruct (String.eqb_spec pred "ERROR") as [|_]; [done|].
  rewrite Hname, Htruth, Hcell. cbn. by rewrite Hfloat.
Qed.

(** A pass that reads readable rows and then meets bytes it cannot decode
    raises the decoding error. *)
Lemma read_predictions_decode_failure (r : reading) :
  Forall (readable_row float) (delivered r) ->
  decode_failure r = true ->
  read_predictions float r [] = Raise UnicodeDecodeError.
Proof.
  intros Hrows Hfail. unfold read_predictions.
  rewrite read_prediction_rows_readable by done. cbn. by rewrite Hfail.
Qed.

(** A pass over a table whose first row has no [pred_label] column raises
    [KeyError]. *)
Lemma read_predictions_missing_column (r : reading)
    (row : gmap string string) (rest : list (gmap string string)) :
  delivered r = row :: rest ->
  row !! "pred_label" = None ->
  read_predictions float r [] = Raise KeyError.
Proof.
  intros Hrows Hrow. unfold read_predictions. rewrite Hrows.
  cbn [read_prediction_rows]. unfold getitem. by rewrite Hrow.
Qed.

End LoadFailures.

Section LoadFailureProperties.

Import EvaluateAccuracy.

(** A retained row whose confidence [float] rejects makes the load raise
    [ValueError] during the first pass: the exception is not one of those
    the encoding loop catches, so no other encoding is tried and [main]
    ends on it. *)
Theorem bad_confidence_aborts_load (float : string -> option Q) (f : file)
    (rows_before rows_after : list (gmap string string))
    (row : gmap string string) (name truth pred cell : string) :
  delivered (f utf_8_sig) = rows_before ++ row :: rows_after ->
  Forall (readable_row float) rows_before ->
  row !! "filename" = Some name ->
  row !! "true_label" = Some truth ->
  row !! "pred_label" = Some pred ->
  pred <> "ERROR" ->
  row !! "pred_confidence" = Some cell ->
  float cell = None ->
  load_predictions_from_csv float (Some f) = Raise ValueError
  /\ main float (Some f) = Uncaught ValueError.
Proof.
  intros Hrows Hbefore Hname Htruth Hpred Hkept Hcell Hfloat.
  assert (load_predictions_from_csv float (Some f) = Raise ValueError)
    as Hload.
  { unfold load_predictions_from_csv, encodings_to_try.
    cbn [try_prediction_encodings]. unfold read_predictions at 1.
    rewrite Hrows.
    by rewrite (read_prediction_rows_bad_confidence float rows_before
                  rows_after row name truth pred cell). }
  split; [done|]. unfold main. by rewrite Hload.
Qed.

Lemma bad_confidence_aborts_load_witness :
  let f := plain_file [prediction_row "a.jpg" "apple" "apple" "0.9";
                       prediction_row "b.jpg" "grape" "grape" "high"] in
  load_predictions_from_csv decimal_float (Some f) = Raise ValueError
  /\ main decimal_float (Some f) = Uncaught ValueError.
Proof.
  apply (bad_confidence_aborts_load decimal_float
           (plain_file [prediction_row "a.jpg" "apple" "apple" "0.9";
                        prediction_row "b.jpg" "grape" "grape" "high"])
           [prediction_row "a.jpg" "apple" "apple" "0.9"] []
           (prediction_row "b.jpg" "grape" "grape" "high")
           "b.jpg" "grape" "grape" "high").
  - reflexivity.
  - apply Forall_cons; split; [right; vm_compute; eauto|apply Forall_nil_2].
  - reflexivity.
  - reflexivity.
  - reflexivity.
  - discriminate.
  - reflexivity.
  - reflexivity.
Defined.



(** A table that no candidate encoding reads to the end, or whose header
    has no [pred_label] column, raises [ValueError]: the decoding errors
    and the [KeyError] are swallowed by the loop, and [main] ends on the
    [ValueError]. *)
Theorem unreadable_predictions_raise_ValueError (float : string -> option Q)
    (f : file) :
  (forall enc,
     (Forall (readable_row float) (delivered (f enc))
      /\ decode_failure (f enc) = true)
     \/ (exists row rest, delivered (f enc) = row :: rest
                          /\ row !! "pred_label" = None)) ->
  load_predictions_from_csv float (Some f) = Raise ValueError
  /\ main float (Some f) = Uncaught ValueError.
Proof.
  intros Hall.
  assert (forall enc, exists exn,
            read_predictions float (f enc) [] = Raise exn
            /\ caught exn = true) as Hfail.
  { intros enc. destruct (Hall enc) as [[Hrows Hdec]|(row & rest & Hr & Hk)].
    - exists UnicodeDecodeError. split; [|done].
      by apply read_predictions_decode_failure.
    - exists KeyError. split; [|done].
      by apply (read_predictions_missing_column float _ row rest). }
  assert (load_predictions_from_csv float (Some f) = Raise ValueError)
    as Hload.
  { unfold load_predictions_from_csv, encodings_to_try.
    cbn [try_prediction_encodings].
    destruct (Hfail utf_8_sig) as (e1 & -> & ->).
    destruct (Hfail utf_8) as (e2 & -> & ->).
    destruct (Hfail cp949) as (e3 & -> & ->).
    destruct (Hfail euc_kr) as (e4 & -> & ->). done. }
  split; [done|]. unfold main. by rewrite Hload.
Qed.

Lemma unreadable_predictions_raise_ValueError_witness :
  let f := plain_file [label_row "a.jpg" "apple"] in
  load_predictions_from_csv decimal_float (Some f) = Raise ValueError
  /\ main decimal_float (Some f) = Uncaught ValueError.
Proof.
  apply (unreadable_predictions_raise_ValueError decimal_float
           (plain_file [label_row "a.jpg" "apple"])).
  intros enc. right. exists (label_row "a.jpg" "apple"), [].
  split; reflexivity.
Defined.

End LoadFailureProperties.

(** ** Trimmed strings *)

Section Trimmed.

Lemma rstrip_idempotent (s : string) : rstrip (rstrip s) = rstrip s.
Proof.
  induction s as [|c s IH]; [done|]. cbn [rstrip].
  destruct (rstrip s) as [|d kept] eqn:Hs.
  - destruct (isspace c) eqn:Hc; [done|]. cbn. by rewrite Hc.
  - cbn [rstrip]. cbn [rstrip] in IH. by rewrite IH.
Qed.

Lemma rstrip_keeps_head (c : ascii) (rest : string) :
  isspace c = false -> exists kept, rstrip (String c rest) = String c kept.
Proof.
  intros Hc. cbn [rstrip]. destruct (rstrip rest); [rewrite Hc|]; eauto.
Qed.

(** Trimming a trimmed string changes nothing. *)
Lemma strip_idempotent (s : string) : strip (strip s) = strip s.
Proof.
  unfold strip. destruct (blank s) eqn:Hb.
  - by rewrite (lstrip_blank s Hb).
  - destruct (lstrip_not_blank s Hb) as (c & rest & -> & Hc).
    destruct (rstrip_keeps_head c rest Hc) as [kept Hk].
    rewrite Hk at 1. cbn [lstrip]. rewrite Hc, <- Hk.
    apply rstrip_idempotent.
Qed.

End Trimmed.

(** ** What the label loader returns *)

Section LoadedLabels.

Import Utils.

(** An entry the loader can store: trimmed file name, trimmed and
    non-empty label. *)
Let stored (k v : string) : Prop := strip k = k /\ strip v = v /\ v <> "".

Lemma read_label_rows_stored (rows : list (gmap string string))
    (d d' : gmap string string) (w : list string) :
  map_Forall stored d ->
  snd (read_label_rows rows d w) = Ok d' ->
  map_Forall stored d'.
Proof.
  revert d w. induction rows as [|row rows IH]; intros d w Hd.
  - cbn. by intros [= <-].
  - cbn [read_label_rows]. unfold getitem.
    destruct (row !! "filename") as [f|]; [|done].
    destruct (row !! "label") as [l|]; [|done].
    destruct (String.eqb_spec (strip l) "") as [|Hl]; [by apply IH|].
    apply IH. apply map_Forall_insert_2; [|done].
    unfold stored. by rewrite !strip_idempotent.
Qed.

Lemma try_label_encodings_stored (encodings : list encoding) (f : file)
    (d d' : gmap string string) (w : list string) :
  map_Forall stored d ->
  snd (try_label_encodings encodings f d w) = Ok d' ->
  map_Forall stored d'.
Proof.
  revert d w. induction encodings as [|enc encodings IH]; intros d w Hd.
  - cbn. by intros [= <-].
  - cbn [try_label_encodings]. unfold read_labels.
    pose proof (read_label_rows_stored (delivered (f enc)) d d' w Hd) as Hrows.
    destruct (read_label_rows (delivered (f enc)) d w) as [w1 [d1|e]].
    + destruct (decode_failure (f enc)).
      * cbn [caught]. apply (IH ∅ w1), map_Forall_empty.
      * exact Hrows.
    + destruct (caught e); [apply (IH ∅ w1), map_Forall_empty|done].
Qed.

Lemma load_answers_stored (csv_path : option file) (d : gmap string string) :
  snd (load_answers_from_csv csv_path) = Ok d ->
  d <> ∅ /\ map_Forall stored d.
Proof.
  unfold load_answers_from_csv. destruct csv_path as [f|]; [|done].
  pose proof (try_label_encodings_stored encodings_to_try f ∅ d []
                (map_Forall_empty _)) as Htry.
  destruct (try_label_encodings encodings_to_try f ∅ []) as [w [d1|e]];
    [|done].
  case_bool_decide as Hempty; [done|]. cbn. intros [= <-].
  split; [done|]. by apply Htry.
Qed.

End LoadedLabels.

Section LoadedLabelProperties.

Import Utils.

(** Whenever [load_answers_from_csv] returns, the mapping has at least one
    entry, every file name and label in it is trimmed, and no label is
    empty. *)
Theorem loaded_labels_are_trimmed (csv_path : option file)
    (labels_dict : gmap string string) :
  snd (load_answers_from_csv csv_path) = Ok labels_dict ->
  labels_dict <> ∅
  /\ map_Forall (fun filename label =>
                   strip filename = filename
                   /\ strip label = label
                   /\ label <> "") labels_dict.
Proof. apply load_answers_stored. Qed.

Lemma loaded_labels_are_trimmed_witness :
  (<["b.jpg" := "grape"]> ∅ : gmap string string) <> ∅
  /\ map_Forall (fun filename label =>
                   strip filename = filename
                   /\ strip label = label
                   /\ label <> "")
       (<["b.jpg" := "grape"]> ∅ : gmap string string).
Proof.
  apply (loaded_labels_are_trimmed
           (Some (plain_file [label_row "a.jpg" " ";
                              label_row " b.jpg" " grape "]))).
  vm_compute. reflexivity.
Defined.

(** The branch of [main] for an empty mapping cannot be reached: the
    loader raises before it would return an empty mapping. *)
Theorem classify_main_never_no_valid_labels (api_key : string)
    (answer_file : option file) (image_folder : option (list path))
    (api : string -> api_reply) :
  ClassifyImages.main api_key answer_file image_folder api
  <> ClassifyImages.NoValidLabels.
Proof.
  unfold ClassifyImages.main. destruct (String.eqb api_key ""); [done|].
  pose proof (load_answers_stored answer_file) as Hload.
  destruct (snd (load_answers_from_csv answer_file)) as [d|e].
  - destruct (Hload d eq_refl) as [Hne _].
    rewrite bool_decide_eq_false_2 by done.
    destruct (ClassifyImages.get_image_files image_folder); [done|].
    destruct (ClassifyImages.classify_all d api (p :: l) [] [])
      as [[[|q preds] log]|e]; done.
  - by destruct e.
Qed.

(** A label table that no candidate encoding reads to the end, or whose
    rows lack the [filename] or the [label] column, raises [ValueError],
    and [main] stops with the message for an unreadable answer file before
    it looks at any image. *)
Theorem unreadable_labels_raise_ValueError (f : file) (api_key : string)
    (image_folder : option (list path)) (api : string -> api_reply) :
  api_key <> "" ->
  (forall enc,
     (Forall label_row_ok (delivered (f enc)) /\ decode_failure (f enc) = true)
     \/ (exists row rest, delivered (f enc) = row :: rest
                          /\ (row !! "filename" = None
                              \/ row !! "label" = None))) ->
  snd (load_answers_from_csv (Some f)) = Raise ValueError
  /\ ClassifyImages.main api_key (Some f) image_folder api
     = ClassifyImages.AnswersUnreadable.
Proof.
  intros Hkey Hall.
  assert (forall enc w, exists w' exn,
            read_labels (f enc) ∅ w = (w', Raise exn) /\ caught exn = true)
    as Hfail.
  { intros enc w. unfold read_labels.
    destruct (Hall enc) as [[Hrows Hdec]|(row & rest & Hr & Hk)].
    - rewrite read_label_rows_ok, Hdec by done. by eexists _, _.
    - rewrite Hr. cbn [read_label_rows]. unfold getitem.
      destruct (row !! "filename"); [|by eexists _, KeyError].
      destruct Hk as [|Hk]; [done|]. rewrite Hk. by eexists _, KeyError. }
  assert (snd (load_answers_from_csv (Some f)) = Raise ValueError) as Hload.
  { unfold load_answers_from_csv, encodings_to_try.
    cbn [try_label_encodings].
    destruct (Hfail utf_8_sig []) as (w1 & e1 & -> & ->).
    destruct (Hfail utf_8 w1) as (w2 & e2 & -> & ->).
    destruct (Hfail cp949 w2) as (w3 & e3 & -> & ->).
    destruct (Hfail euc_kr w3) as (w4 & e4 & -> & ->). done. }
  split; [done|]. unfold ClassifyImages.main.
  destruct (String.eqb_spec api_key "") as [|_]; [done|]. by rewrite Hload.
Qed.

Lemma unreadable_labels_raise_ValueError_witness :
  let f := plain_file [prediction_row "a.jpg" "apple" "apple" "0.9"] in
  snd (load_answers_from_csv (Some f)) = Raise ValueError
  /\ ClassifyImages.main "key" (Some f) (Some [sample_image "a.jpg"])
       (fun _ => ApiException)
     = ClassifyImages.AnswersUnreadable.
Proof.
  apply (unreadable_labels_raise_ValueError
           (plain_file [prediction_row "a.jpg" "apple" "apple" "0.9"])
           "key" (Some [sample_image "a.jpg"]) (fun _ => ApiException)).
  - discriminate.
  - intros enc. right.
    exists (prediction_row "a.jpg" "apple" "apple" "0.9"), [].
    split; [reflexivity|]. right. reflexivity.
Defined.

(** A freshly written template is rejected as it is: reading it back warns
    about every image, in the order of the template, and raises
    [ValueError]. *)
Theorem unannotated_template_is_rejected (image_files : list path) :
  load_answers_from_csv
    (Some (plain_file
             (CreateAnswerTemplate.rows
                (CreateAnswerTemplate.create_answer_template image_files))))
  = ((fun p => strip (name p)) <$> image_files, Raise ValueError).
Proof.
  set (rows := CreateAnswerTemplate.rows
                 (CreateAnswerTemplate.create_answer_template image_files)).
  assert (Forall label_row_ok rows) as Hok.
  { subst rows. cbn. apply List.Forall_map, Forall_forall. intros p _.
    split; [by rewrite lookup_insert_eq|].
    by rewrite lookup_insert_ne, lookup_insert_eq. }
  assert (omap blank_label_file rows = (fun p => strip (name p)) <$> image_files)
    as Hwarn.
  { clear Hok. subst rows. cbn. induction image_files as [|p l IH]; [done|].
    cbn. unfold blank_label_file at 1.
    rewrite lookup_insert_eq, lookup_insert_ne, lookup_insert_eq by done.
    cbn. f_equal. apply IH. }
  assert (labels_of rows = ∅) as Hempty.
  { apply only_blank_labels_empty. subst rows. cbn.
    apply forallb_forall. intros row [p [<- _]]%in_map_iff.
    unfold blank_label_row.
    by rewrite lookup_insert_ne, lookup_insert_eq. }
  unfold load_answers_from_csv, encodings_to_try.
  cbn [try_label_encodings]. unfold read_labels.
  cbn [plain_file delivered decode_failure].
  rewrite read_label_rows_ok by done.
  change (fold_left add_label rows ∅) with (labels_of rows).
  rewrite Hwarn, Hempty. cbn [app].
  by rewrite bool_decide_eq_true_2.
Qed.

End LoadedLabelProperties.

(** ** Sorting and filtering *)

Section SortedFilter.

Context {A : Type} (key : A -> string).

Let key_le (a b : A) : Prop := String.le (key a) (key b).

Lemma key_le_trans (a b c : A) : key_le a b -> key_le b c -> key_le a c.
Proof. unfold key_le. apply (transitivity (R := String.le)). Qed.

Lemma sorted_StronglySorted (l : list A) : StronglySorted key_le (sorted key l).
Proof.
  apply Sorted.Sorted_StronglySorted; [|apply sorted_Sorted].
  intros a b c. apply key_le_trans.
Qed.

(** An element not above any element of a list is inserted in front. *)
Lemma insert_by_front (x : A) (l : list A) :
  Forall (key_le x) l -> insert_by key x l = x :: l.
Proof.
  intros Hl. destruct l as [|y l]; [done|]. cbn.
  apply Forall_cons in Hl as [Hy _].
  apply (key_leb_le key) in Hy. by rewrite Hy.
Qed.

Lemma Forall_list_filter (P : A -> Prop) (keep : A -> bool) (l : list A) :
  Forall P l -> Forall P (List.filter keep l).
Proof.
  induction 1 as [|y l Hy _ IH]; [constructor|]. cbn.
  destruct (keep y); [by constructor|done].
Qed.

(** Filtering a sorted list after an insertion is inserting into the
    filtered list, when the element is kept. *)
Lemma filter_insert_by (keep : A -> bool) (x : A) (l : list A) :
  StronglySorted key_le l ->
  List.filter keep (insert_by key x l)
  = if keep x then insert_by key x (List.filter keep l)
    else List.filter keep l.
Proof.
  induction 1 as [|y l Hl IH Hy]; cbn.
  - by destruct (keep x).
  - destruct (String.leb (key x) (key y)) eqn:Hxy.
    + cbn. destruct (keep x) eqn:Hx; [|done].
      symmetry. apply (insert_by_front x (List.filter keep (y :: l))).
      apply Forall_list_filter. apply (key_leb_le key) in Hxy.
      apply Forall_cons. split; [done|].
      eapply Forall_impl; [exact Hy|]. intros z. by apply key_le_trans.
    + cbn. rewrite IH. destruct (keep y), (keep x); cbn; by rewrite ?Hxy.
Qed.

(** Sorting and filtering commute. *)
Lemma filter_sorted (keep : A -> bool) (l : list A) :
  List.filter keep (sorted key l) = sorted key (List.filter keep l).
Proof.
  induction l as [|x l IH]; [done|]. cbn.
  rewrite filter_insert_by by apply sorted_StronglySorted.
  rewrite IH. by destruct (keep x).
Qed.

(** Two listings of the same entries, in any order, sort to the same list
    when no two entries share a key. *)
Lemma sorted_unique (l1 l2 : list A) :
  l1 ≡ₚ l2 ->
  (forall x y, x ∈ l1 -> y ∈ l1 -> key x = key y -> x = y) ->
  sorted key l1 = sorted key l2.
Proof.
  intros Hperm Hinj.
  apply (StronglySorted_unique_strong key_le);
    [|apply sorted_StronglySorted..|by rewrite !sorted_Permutation].
  intros x y Hx Hy Hxy Hyx.
  rewrite sorted_Permutation in Hx. rewrite sorted_Permutation, <- Hperm in Hy.
  apply Hinj; [done..|]. by apply (anti_symm String.le).
Qed.

End SortedFilter.

(** ** The image lists of the two scripts *)

Section ImageLists.

Import Utils.

Lemma validate_valid (p : path) : validate_image_file p = true <-> valid_image p.
Proof.
  unfold validate_image_file, valid_image, SUPPORTED_IMAGE_EXTENSIONS.
  destruct (is_file p); cbn.
  - rewrite bool_decide_eq_true. tauto.
  - split; [done|]. by intros [? _].
Qed.

Lemma valid_qualifying (p : path) : valid_image p -> qualifying p.
Proof.
  unfold valid_image, qualifying. intros [Hfile Hext]. split; [done|].
  apply list_elem_of_In. apply list_elem_of_In in Hext.
  simpl in *. tauto.
Qed.

Lemma filter_validate (entries : list path) :
  List.filter validate_image_file entries = filter valid_image entries.
Proof.
  induction entries as [|p l IH]; [done|]. simpl. rewrite filter_cons.
  destruct (validate_image_file p) eqn:Hp.
  - rewrite decide_True by (by apply validate_valid). by rewrite IH.
  - rewrite decide_False; [done|]. rewrite <- validate_valid. congruence.
Qed.

Lemma filter_validate_supported (entries : list path) :
  List.filter validate_image_file
    (List.filter CreateAnswerTemplate.is_supported_image entries)
  = List.filter validate_image_file entries.
Proof.
  induction entries as [|p l IH]; [done|]. cbn.
  destruct (CreateAnswerTemplate.is_supported_image p) eqn:Hs; cbn.
  - by rewrite IH.
  - destruct (validate_image_file p) eqn:Hv; [|done].
    apply validate_valid, valid_qualifying, supported_qualifying in Hv.
    congruence.
Qed.

(** The images of the batch driver are the regular files of the folder
    with extension [.jpg], [.jpeg] or [.png] in any letter case, each
    once, in the lexicographic order of their names; a missing folder
    gives no image. *)
Theorem batch_image_files_sorted (entries : list path) :
  let image_files := ClassifyImages.get_image_files (Some entries) in
  image_files ≡ₚ filter valid_image entries
  /\ StronglySorted String.le (name <$> image_files)
  /\ ClassifyImages.get_image_files None = [].
Proof.
  intros image_files. subst image_files. unfold ClassifyImages.get_image_files.
  split; [|split; [|done]].
  - by rewrite sorted_Permutation, filter_validate.
  - apply sorted_keys_StronglySorted.
Qed.

(** The image list of the batch driver is the image list of the template
    generator without the files only the template admits, in the same
    order. *)
Theorem batch_images_are_template_images (folder : option (list path)) :
  ClassifyImages.get_image_files folder
  = List.filter validate_image_file
      (CreateAnswerTemplate.get_all_image_files folder).
Proof.
  destruct folder as [entries|]; [|done].
  unfold ClassifyImages.get_image_files,
    CreateAnswerTemplate.get_all_image_files.
  by rewrite filter_sorted, filter_validate_supported.
Qed.

(** The order in which the folder lists its entries does not matter: two
    listings of the same entries, no two with the same name, give the same
    image lists. *)
Theorem image_lists_ignore_listing_order (entries1 entries2 : list path) :
  entries1 ≡ₚ entries2 ->
  (forall p q, p ∈ entries1 -> q ∈ entries1 -> name p = name q -> p = q) ->
  ClassifyImages.get_image_files (Some entries1)
  = ClassifyImages.get_image_files (Some entries2)
  /\ CreateAnswerTemplate.get_all_image_files (Some entries1)
     = CreateAnswerTemplate.get_all_image_files (Some entries2).
Proof.
  intros Hperm Hinj.
  unfold ClassifyImages.get_image_files,
    CreateAnswerTemplate.get_all_image_files.
  split; apply sorted_unique.
  - by rewrite !filter_validate, Hperm.
  - intros p q Hp Hq. rewrite filter_validate in Hp, Hq.
    apply list_elem_of_filter in Hp as [_ Hp].
    apply list_elem_of_filter in Hq as [_ Hq]. by apply Hinj.
  - by rewrite !filter_supported, Hperm.
  - intros p q Hp Hq. rewrite filter_supported in Hp, Hq.
    apply list_elem_of_filter in Hp as [_ Hp].
    apply list_elem_of_filter in Hq as [_ Hq]. by apply Hinj.
Qed.

Lemma image_lists_ignore_listing_order_witness :
  ClassifyImages.get_image_files
    (Some [sample_image "b.png"; sample_image "a.jpg"])
  = ClassifyImages.get_image_files
      (Some [sample_image "a.jpg"; sample_image "b.png"])
  /\ CreateAnswerTemplate.get_all_image_files
       (Some [sample_image "b.png"; sample_image "a.jpg"])
     = CreateAnswerTemplate.get_all_image_files
         (Some [sample_image "a.jpg"; sample_image "b.png"]).
Proof.
  apply image_lists_ignore_listing_order.
  - apply Permutation_swap.
  - intros p q Hp Hq Hname. unfold sample_image in *.
    apply list_elem_of_In in Hp, Hq. simpl in Hp, Hq.
    destruct Hp as [<-|[<-|[]]], Hq as [<-|[<-|[]]];
      (reflexivity || discriminate Hname).
Defined.

(** A regular file with extension [.bmp] or [.gif] gets a row in the
    answer template but is never among the images the batch classifies. *)
Theorem bmp_gif_listed_but_not_classified (entries : list path) (p : path) :
  p ∈ entries ->
  is_file p = true ->
  lower (suffix p) ∈ [".bmp"; ".gif"] ->
  p ∈ CreateAnswerTemplate.get_all_image_files (Some entries)
  /\ p ∉ ClassifyImages.get_image_files (Some entries).
Proof.
  intros Hp Hfile Hext.
  unfold ClassifyImages.get_image_files,
    CreateAnswerTemplate.get_all_image_files.
  rewrite !sorted_Permutation, filter_supported, filter_validate.
  rewrite !list_elem_of_filter. unfold qualifying, valid_image.
  apply list_elem_of_In in Hext. simpl in Hext. split.
  - split; [|done]. split; [done|]. apply list_elem_of_In. simpl. tauto.
  - intros [[_ Hv] _]. apply list_elem_of_In in Hv. simpl in Hv.
    destruct Hext as [E|[E|[]]]; rewrite <- E in Hv;
      intuition discriminate.
Qed.

Lemma bmp_gif_listed_but_not_classified_witness :
  sample_image "c.GIF"
    ∈ CreateAnswerTemplate.get_all_image_files
        (Some [sample_image "a.jpg"; sample_image "c.GIF"])
  /\ sample_image "c.GIF"
       ∉ ClassifyImages.get_image_files
           (Some [sample_image "a.jpg"; sample_image "c.GIF"]).
Proof.
  apply bmp_gif_listed_but_not_classified.
  - apply list_elem_of_In. simpl. tauto.
  - reflexivity.
  - apply list_elem_of_In. vm_compute. tauto.
Defined.

End ImageLists.

(** ** The batch loop as a whole *)

Section Batch.

Import ClassifyImages.

Lemma classify_all_step (answers_dict : gmap string string)
    (api : string -> Utils.api_reply) (image_path : Utils.path)
    (rest : list Utils.path) (preds : list prediction) (log : list event) :
  classify_all answers_dict api (image_path :: rest) preds log
  = match label_of answers_dict image_path with
    | None =>
        classify_all answers_dict api rest preds
          (log ++ [NoLabel (Utils.name image_path)])
    | Some label =>
        shown ← display_progress (Utils.name image_path)
                  (pred_label (classify_single_image image_path api label))
                  (pred_confidence (classify_single_image image_path api label))
                  label;
        classify_all answers_dict api rest
          (preds ++ [classify_single_image image_path api label])
          (log ++ [shown])
    end.
Proof.
  cbn [classify_all]. unfold label_of.
  destruct (answers_dict !! Utils.name image_path) as [label|]; cbn; [|done].
  by destruct (String.eqb label "unknown").
Qed.

Lemma classify_all_app (answers_dict : gmap string string)
    (api : string -> Utils.api_reply) (l1 l2 : list Utils.path)
    (preds : list prediction) (log : list event) :
  classify_all answers_dict api (l1 ++ l2) preds log
  = classify_all answers_dict api l1 preds log
      ≫= fun done => classify_all answers_dict api l2 (fst done) (snd done).
Proof.
  revert preds log. induction l1 as [|p l1 IH]; intros preds log; [done|].
  cbn [app]. rewrite !classify_all_step.
  destruct (label_of answers_dict p) as [label|]; [|apply IH].
  destruct (display_progress _ _ _ _) as [shown|e]; [|done]. apply IH.
Qed.

Lemma printable_display (filename label : string) (p : prediction) :
  printable p = true ->
  exists shown,
    display_progress filename (pred_label p) (pred_confidence p) label
    = Ok shown.
Proof.
  unfold printable, display_progress.
  destruct (pred_label p); try done.
  destruct (pred_confidence p); try done; eauto.
Qed.

Lemma unprintable_display (filename label : string) (p : prediction) :
  printable p = false ->
  exists e,
    display_progress filename (pred_label p) (pred_confidence p) label
    = Raise e.
Proof.
  unfold printable, display_progress.
  destruct (pred_label p); eauto.
  destruct (pred_confidence p); try done; eauto.
Qed.

(** The loop over images whose records can all be printed. *)
Lemma classify_all_printable (answers_dict : gmap string string)
    (api : string -> Utils.api_reply) (images : list Utils.path)
    (preds : list prediction) (log : list event) :
  Forall (fun p => printable p = true)
         (omap (batch_record answers_dict api) images) ->
  exists shown,
    classify_all answers_dict api images preds log
    = Ok (preds ++ omap (batch_record answers_dict api) images, log ++ shown)
    /\ length shown = length images.
Proof.
  revert preds log. induction images as [|img images IH]; intros preds log Hp.
  - exists []. cbn. by rewrite !app_nil_r.
  - rewrite classify_all_step. cbn [omap list_omap] in Hp |- *.
    unfold batch_record in Hp |- * at 1.
    destruct (label_of answers_dict img) as [label|]; cbn in Hp |- *.
    + apply Forall_cons in Hp as [Himg Hrest].
      destruct (printable_display (Utils.name img) label _ Himg)
        as [shown ->]. cbn.
      destruct (IH (preds ++ [classify_single_image img api label])
                  (log ++ [shown]) Hrest) as (rest & -> & Hlen).
      exists (shown :: rest). rewrite <- !app_assoc. cbn. by rewrite Hlen.
    + destruct (IH preds (log ++ [NoLabel (Utils.name img)]) Hp)
        as (rest & -> & Hlen).
      exists (NoLabel (Utils.name img) :: rest).
      rewrite <- !app_assoc. cbn. by rewrite Hlen.
Qed.

End Batch.

Section BatchProperties.

Import ClassifyImages.

(** When the record of every labelled image can be printed, the loop ends
    normally with exactly one record for each image whose file name has a
    label other than [unknown], in the order of the images, and one
    progress or "no label" line per image. *)
Theorem batch_records_in_order (answers_dict : gmap string string)
    (api : string -> Utils.api_reply) (images : list Utils.path) :
  Forall (fun p => printable p = true)
         (omap (batch_record answers_dict api) images) ->
  exists shown,
    classify_all answers_dict api images [] []
    = Ok (omap (batch_record answers_dict api) images, shown)
    /\ length shown = length images.
Proof. apply classify_all_printable. Qed.

Lemma batch_records_in_order_witness :
  exists shown,
    classify_all (<["a.jpg" := "apple"]> ∅)
      (fun _ => Utils.Json (VDict [("crop", VStr "Apple");
                                   ("confidence", VNum 0.9)]))
      [sample_image "a.jpg"; sample_image "b.jpg"] [] []
    = Ok (omap (batch_record (<["a.jpg" := "apple"]> ∅)
                  (fun _ => Utils.Json (VDict [("crop", VStr "Apple");
                                               ("confidence", VNum 0.9)])))
               [sample_image "a.jpg"; sample_image "b.jpg"], shown)
    /\ length shown = 2.
Proof.
  apply (batch_records_in_order (<["a.jpg" := "apple"]> ∅)
           (fun _ => Utils.Json (VDict [("crop", VStr "Apple");
                                        ("confidence", VNum 0.9)]))
           [sample_image "a.jpg"; sample_image "b.jpg"]).
  vm_compute. apply Forall_cons; split; [reflexivity|apply Forall_nil_2].
Defined.

(** Adapter failures never end the batch: when the service fails for every
    image, the loop still ends normally, and every image with a label gets
    the error record. *)
Theorem adapter_failures_never_end_batch (answers_dict : gmap string string)
    (api : string -> Utils.api_reply) (images : list Utils.path) :
  Forall (fun img => reply_object img api = None) images ->
  exists shown,
    classify_all answers_dict api images [] []
    = Ok (omap (fun img => error_prediction img <$> label_of answers_dict img)
               images, shown)
    /\ length shown = length images.
Proof.
  intros Hfail.
  assert (omap (batch_record answers_dict api) images
          = omap (fun img => error_prediction img <$> label_of answers_dict img)
              images) as Hrec.
  { induction Hfail as [|img images Himg _ IH]; [done|].
    cbn. unfold batch_record at 1. rewrite IH.
    destruct (label_of answers_dict img) as [label|]; [|done]. cbn.
    by rewrite classify_single_image_fields, Himg. }
  rewrite <- Hrec. apply classify_all_printable. rewrite Hrec.
  clear Hrec Hfail. induction images as [|img images IH]; [constructor|].
  cbn. destruct (label_of answers_dict img); [|done]. by constructor.
Qed.

Lemma adapter_failures_never_end_batch_witness :
  exists shown,
    classify_all (<["a.jpg" := "apple"]> ∅) (fun _ => Utils.InvalidJson)
      [sample_image "a.jpg"; sample_image "b.jpg"] [] []
    = Ok (omap (fun img => error_prediction img
                             <$> label_of (<["a.jpg" := "apple"]> ∅) img)
               [sample_image "a.jpg"; sample_image "b.jpg"], shown)
    /\ length shown = 2.
Proof.
  apply (adapter_failures_never_end_batch (<["a.jpg" := "apple"]> ∅)
           (fun _ => Utils.InvalidJson)
           [sample_image "a.jpg"; sample_image "b.jpg"]).
  apply Forall_cons; split; [reflexivity|].
  apply Forall_cons; split; [reflexivity|apply Forall_nil_2].
Defined.

(** A record that cannot be printed (a label that is not a string, or a
    confidence that is not a number) ends the batch with an exception, and
    [main] saves nothing, not even the records of the images classified
    before it. *)
Theorem unprintable_record_loses_batch (api_key : string)
    (answer_file : option file) (image_folder : option (list Utils.path))
    (api : string -> Utils.api_reply) (answers_dict : gmap string string)
    (before after : list Utils.path) (image_path : Utils.path)
    (p : prediction) :
  api_key <> "" ->
  snd (Utils.load_answers_from_csv answer_file) = Ok answers_dict ->
  get_image_files image_folder = before ++ image_path :: after ->
  Forall (fun p => printable p = true)
         (omap (batch_record answers_dict api) before) ->
  batch_record answers_dict api image_path = Some p ->
  printable p = false ->
  exists e, main api_key answer_file image_folder api = Uncaught e.
Proof.
  intros Hkey Hload Himages Hbefore Himg Hp.
  assert (exists e, classify_all answers_dict api
                      (before ++ image_path :: after) [] [] = Raise e)
    as [e Hloop].
  { rewrite classify_all_app.
    destruct (classify_all_printable answers_dict api before [] [] Hbefore)
      as (shown & -> & _).
    unfold mbind, result_bind. cbn [fst snd]. rewrite classify_all_step.
    unfold batch_record in Himg.
    destruct (label_of answers_dict image_path) as [label|]; [|done].
    injection Himg as <-.
    destruct (unprintable_display (Utils.name image_path) label _ Hp)
      as [e ->]. by exists e. }
  exists e. unfold main.
  destruct (String.eqb_spec api_key "") as [|_]; [done|].
  rewrite Hload.
  destruct (load_answers_stored answer_file answers_dict Hload) as [Hne _].
  rewrite bool_decide_eq_false_2 by done.
  rewrite Himages. clear Hbefore.
  destruct before as [|b bs]; cbn [app] in Hloop |- *; by rewrite Hloop.
Qed.

Lemma unprintable_record_loses_batch_witness :
  exists e,
    main "key"
      (Some (plain_file [label_row "a.jpg" "apple"; label_row "b.jpg" "pear"]))
      (Some [sample_image "a.jpg"; sample_image "b.jpg"])
      (fun _ => Utils.Json (VDict [("crop", VStr "apple");
                                   ("confidence", VStr "high")]))
    = Uncaught e.
Proof.
  apply (unprintable_record_loses_batch "key"
           (Some (plain_file [label_row "a.jpg" "apple";
                              label_row "b.jpg" "pear"]))
           (Some [sample_image "a.jpg"; sample_image "b.jpg"])
           (fun _ => Utils.Json (VDict [("crop", VStr "apple");
                                        ("confidence", VStr "high")]))
           (<["a.jpg" := "apple"]> (<["b.jpg" := "pear"]> ∅))
           [] [sample_image "b.jpg"] (sample_image "a.jpg")
           (classify_single_image (sample_image "a.jpg")
              (fun _ => Utils.Json (VDict [("crop", VStr "apple");
                                           ("confidence", VStr "high")]))
              "apple")).
  - discriminate.
  - vm_compute. reflexivity.
  - vm_compute. reflexivity.
  - apply Forall_nil_2.
  - vm_compute. reflexivity.
  - reflexivity.
Defined.

End BatchProperties.

(** ** From the saved table to the evaluation *)

Section Pipeline.

Import ClassifyImages.

Variable str : value -> string.
Variable float : string -> option Q.

Let saved_rows (predictions : list prediction) : list (gmap string string) :=
  CreateAnswerTemplate.rows (save_predictions_to_csv str predictions).

Let saved_row (p : prediction) : gmap string string :=
  <["filename" := filename p]>
    (<["true_label" := true_label p]>
       (<["pred_label" := written_cell str (pred_label p)]>
          (<["pred_confidence" := written_cell str (pred_confidence p)]> ∅))).

Lemma saved_row_lookup (p : prediction) :
  saved_row p !! "filename" = Some (filename p)
  /\ saved_row p !! "true_label" = Some (true_label p)
  /\ saved_row p !! "pred_label" = Some (written_cell str (pred_label p))
  /\ saved_row p !! "pred_confidence"
     = Some (written_cell str (pred_confidence p)).
Proof.
  unfold saved_row.
  repeat split; by rewrite ?lookup_insert_ne, ?lookup_insert_eq.
Qed.

(** What the loader makes of the rows of saved records that read back. *)
Lemma saved_rows_loaded (predictions : list prediction) :
  Forall (reads_back str float) predictions ->
  Forall (readable_row float) (saved_rows predictions)
  /\ omap (record_of float)
       (filter (fun row => ~ is_error_row row) (saved_rows predictions))
     = omap loaded_record predictions.
Proof.
  change (saved_rows predictions) with (map saved_row predictions).
  induction 1 as [|p l Hp _ [IHr IHl]]; [by split|].
  cbn [map]. rewrite filter_cons.
  destruct (saved_row_lookup p) as (Hname & Htruth & Hpred & Hconf).
  destruct Hp as [Herr|(label & q & Hlabel & Hq & Hfloat)].
  - assert (is_error_row (saved_row p)) as Hrow
      by (unfold is_error_row; by rewrite Hpred, Herr).
    split; [apply Forall_cons; split; [by left|done]|].
    rewrite decide_False by tauto. rewrite IHl.
    cbn [omap list_omap]. unfold loaded_record at 2. rewrite Herr.
    by destruct (pred_confidence p).
  - assert (record_of float (saved_row p)
            = Some {| EvaluateAccuracy.filename := filename p;
                      EvaluateAccuracy.true_label := true_label p;
                      EvaluateAccuracy.pred_label := label;
                      EvaluateAccuracy.pred_confidence := q |}) as Hrec.
    { unfold record_of. rewrite Hname, Htruth, Hpred, Hconf, Hlabel, Hq.
      cbn. rewrite Hfloat. done. }
    split; [apply Forall_cons; split; [right; by eexists|done]|].
    destruct (String.eqb_spec label "ERROR") as [->|Hne].
    + assert (is_error_row (saved_row p)) as Hrow
        by (unfold is_error_row; by rewrite Hpred, Hlabel).
      rewrite decide_False by tauto. rewrite IHl.
      cbn [omap list_omap]. unfold loaded_record at 2.
      by rewrite Hlabel, Hq.
    + rewrite decide_True.
      * cbn [omap list_omap]. rewrite Hrec, IHl.
        unfold loaded_record at 2. rewrite Hlabel, Hq.
        by destruct (String.eqb_spec label "ERROR").
      * unfold is_error_row. rewrite Hpred, Hlabel. cbn. congruence.
Qed.

Lemma load_saved (predictions : list prediction) :
  Forall (reads_back str float) predictions ->
  EvaluateAccuracy.load_predictions_from_csv float
    (Some (plain_file (saved_rows predictions)))
  = match omap loaded_record predictions with
    | [] => Raise ValueError
    | loaded => Ok loaded
    end.
Proof.
  intros Hp. destruct (saved_rows_loaded predictions Hp) as [Hrows Hload].
  rewrite (load_predictions_readable float
             (plain_file (saved_rows predictions)) []
             [utf_8; cp949; euc_kr] utf_8_sig (saved_rows predictions));
    [by rewrite Hload|done|apply Forall_nil_2|done|done].
Qed.

End Pipeline.

Section PipelineProperties.

Import ClassifyImages.

(** Reading back the table the batch saved: the evaluator gets, in order,
    one record for every saved record whose label is not [ERROR], with the
    same file name, true label, predicted label and confidence; the error
    records are left out. *)
Theorem saved_predictions_load_back (str : value -> string)
    (float : string -> option Q) (predictions : list prediction) :
  Forall (reads_back str float) predictions ->
  EvaluateAccuracy.load_predictions_from_csv float
    (Some (plain_file
             (CreateAnswerTemplate.rows
                (save_predictions_to_csv str predictions))))
  = match omap loaded_record predictions with
    | [] => Raise ValueError
    | loaded => Ok loaded
    end.
Proof. apply load_saved. Qed.

Lemma saved_predictions_load_back_witness :
  let predictions :=
    [ {| filename := "a.jpg"; true_label := "apple";
         pred_label := VStr "Apple"; pred_confidence := VNum 0 |};
      error_prediction (sample_image "b.jpg") "grape" ] in
  EvaluateAccuracy.load_predictions_from_csv decimal_float
    (Some (plain_file
             (CreateAnswerTemplate.rows
                (save_predictions_to_csv (fun _ => "0") predictions))))
  = Ok [ {| EvaluateAccuracy.filename := "a.jpg";
            EvaluateAccuracy.true_label := "apple";
            EvaluateAccuracy.pred_label := "Apple";
            EvaluateAccuracy.pred_confidence := 0 |} ].
Proof.
  intros predictions. etransitivity.
  - apply (saved_predictions_load_back (fun _ => "0") decimal_float).
    apply Forall_cons; split.
    + right. exists "Apple", 0%Q. repeat split; reflexivity.
    + apply Forall_cons; split; [left; reflexivity|apply Forall_nil_2].
  - reflexivity.
Defined.

(** A batch in which the service failed for every image saves a table on
    which the evaluation script ends with the uncaught [ValueError]. *)
Theorem failed_batch_breaks_evaluation (str : value -> string)
    (float : string -> option Q) (predictions : list prediction) :
  Forall (fun p => pred_label p = VStr "ERROR") predictions ->
  EvaluateAccuracy.main float
    (Some (plain_file
             (CreateAnswerTemplate.rows
                (save_predictions_to_csv str predictions))))
  = EvaluateAccuracy.Uncaught ValueError.
Proof.
  intros Herr. unfold EvaluateAccuracy.main.
  rewrite load_saved.
  - assert (omap loaded_record predictions = []) as ->; [|done].
    induction Herr as [|p l Hp _ IH]; [done|].
    cbn. unfold loaded_record at 1. rewrite Hp, IH.
    by destruct (pred_confidence p).
  - eapply Forall_impl; [exact Herr|]. intros p Hp. by left.
Qed.

Lemma failed_batch_breaks_evaluation_witness :
  EvaluateAccuracy.main decimal_float
    (Some (plain_file
             (CreateAnswerTemplate.rows
                (save_predictions_to_csv (fun _ => "0.0")
                   [error_prediction (sample_image "a.jpg") "apple"]))))
  = EvaluateAccuracy.Uncaught ValueError.
Proof.
  apply failed_batch_breaks_evaluation.
  apply Forall_cons; split; [reflexivity|apply Forall_nil_2].
Defined.

End PipelineProperties.

(** ** Repeated file names in the label table *)

Section RepeatedNames.

Import Utils.





End RepeatedNames.

(** ** The outcomes of the evaluation script *)

Section EvaluationOutcomes.

Import EvaluateAccuracy.

Variable float : string -> option Q.





End EvaluationOutcomes.
